(** * codex_ping: the rate-limit reset scheduler of [src/monitor.ts]

    A shallow embedding of the limit reader ([parseHeader], [extractLimits]),
    the ping result ([pingCodex]) and the reset scheduler ([schedulePing],
    [checkLimits], the timer callback and the enable toggles) of
    [src/monitor.ts], with the properties the specification states about them.

    JavaScript numbers are IEEE 754 binary64 values; they are modelled by
    the standard library's [spec_float] at precision 53 and maximal exponent
    1024, so that arithmetic, comparison and truthiness are those of the
    language.  The module-level variables of [monitor.ts] become the fields
    of a record [State]; the timers of the Node event loop and the pings
    whose promise has not settled yet are kept next to them, and every task
    of the event loop (a call of [checkLimits], a timer callback, the
    continuation of an awaited ping, a webview message) is one function on
    that record. *)

From Stdlib Require Import ZArith Bool List Ascii String Lia.
From Stdlib Require Import Floats.SpecFloat.
From stdpp Require Import gmap strings.

Local Open Scope Z_scope.

(** ** The JavaScript built-ins the module uses *)

Module Js.

(** [number]: a binary64 value. *)
Definition number : Type := spec_float.

Definition prec : Z := 53.
Definition emax : Z := 1024.

Definition NaN : number := S754_nan.
Definition zero : number := S754_zero false.

(** The Number value of a mathematical integer (round to nearest, ties to
    even); exact for every integer of magnitude up to 2^53, hence for all
    time values. *)
Definition of_Z (z : Z) : number := binary_normalize prec emax z 0 false.

Definition add (x y : number) : number := SFadd prec emax x y.
Definition sub (x y : number) : number := SFsub prec emax x y.
Definition mul (x y : number) : number := SFmul prec emax x y.

(** [x > y], [x <= y] and [x === y] on numbers: false as soon as one side
    is NaN. *)
Definition gt (x y : number) : bool := SFltb y x.
Definition le (x y : number) : bool := SFleb x y.
Definition eq (x y : number) : bool := SFeqb x y.

Definition isNaN (x : number) : bool :=
  match x with S754_nan => true | _ => false end.

Definition isFinite (x : number) : bool :=
  match x with S754_zero _ | S754_finite _ _ _ => true | _ => false end.

(** ToBoolean on a number: [+0], [-0] and [NaN] are falsy. *)
Definition truthy (x : number) : bool :=
  match x with S754_zero _ | S754_nan => false | _ => true end.

(** [Math.max(a, b)]: NaN if either argument is, and [+0] above [-0]. *)
Definition Math_max (a b : number) : number :=
  if isNaN a || isNaN b then NaN
  else match SFcompare a b with
       | Some Lt => b
       | Some Gt => a
       | _ => match a, b with
              | S754_zero true, S754_zero false => b
              | _, _ => a
              end
       end.

(** [a !== b] for operands of type [number | null]. *)
Definition strict_neq (a b : option number) : bool :=
  match a, b with
  | None, None => false
  | Some x, Some y => negb (eq x y)
  | _, _ => true
  end.

(** *** [String.prototype.toLowerCase], on ASCII letters *)

Definition lower_ascii (c : ascii) : ascii :=
  let n := N_of_ascii c in
  if (65 <=? n)%N && (n <=? 90)%N then ascii_of_N (n + 32) else c.

Fixpoint toLowerCase (s : string) : string :=
  match s with
  | EmptyString => EmptyString
  | String c r => String (lower_ascii c) (toLowerCase r)
  end.

(** *** [parseFloat]

    The longest prefix of the trimmed argument that is a
    [StrDecimalLiteral] is converted to the nearest binary64 value; there
    is no such prefix exactly when the result is NaN.  A character of a
    string is a code unit below 256, which is what a header value decoded
    by Node holds; the white space among them is the part of the
    language's [WhiteSpace] and [LineTerminator] below 256: U+0009 to
    U+000D, U+0020 and the no-break space U+00A0. *)

Definition is_white (c : ascii) : bool :=
  let n := N_of_ascii c in
  ((9 <=? n)%N && (n <=? 13)%N) || (n =? 32)%N || (n =? 160)%N.

Fixpoint trimStart (s : string) : string :=
  match s with
  | String c r => if is_white c then trimStart r else s
  | EmptyString => s
  end.

Definition digit (c : ascii) : option Z :=
  let n := Z.of_N (N_of_ascii c) in
  if (48 <=? n) && (n <=? 57) then Some (n - 48) else None.

(** [DecimalDigits], read as far as they go: the value accumulated on top
    of [acc], the number of digits read on top of [cnt], and the rest. *)
Fixpoint digits (s : string) (acc cnt : Z) : Z * Z * string :=
  match s with
  | String c r =>
      match digit c with
      | Some d => digits r (10 * acc + d) (cnt + 1)
      | None => (acc, cnt, s)
      end
  | EmptyString => (acc, cnt, s)
  end.

(** [ExponentPart], when a complete one starts [s]; 0 otherwise. *)
Definition exponentPart (s : string) : Z :=
  match s with
  | String c r =>
      if (c =? "e")%char || (c =? "E")%char then
        let '(neg, r') :=
          match r with
          | String "+"%char r' => (false, r')
          | String "-"%char r' => (true, r')
          | _ => (false, r)
          end in
        let '(v, n, _) := digits r' 0 0 in
        if n =? 0 then 0 else if neg then - v else v
      else 0
  | EmptyString => 0
  end.

Inductive literal : Type :=
| NoLiteral
| InfinityLiteral
| DecimalLiteral (m e : Z).   (* the mathematical value m * 10^e *)

Definition strUnsignedDecimalLiteral (s : string) : literal :=
  if String.prefix "Infinity" s then InfinityLiteral
  else
    let '(i, ni, r) := digits s 0 0 in
    match r with
    | String "."%char r1 =>
        let '(f, nf, r2) := digits r1 i 0 in
        if (ni =? 0) && (nf =? 0) then NoLiteral
        else DecimalLiteral f (exponentPart r2 - nf)
    | _ => if ni =? 0 then NoLiteral else DecimalLiteral i (exponentPart r)
    end.

(** The binary64 value nearest to [m * 10^e] ([0 <= m]), with sign [neg].
    For a negative exponent the quotient is computed with at least 64
    significant bits and one more bit that records a non-zero remainder,
    which is enough for the rounding to be that of the exact quotient. *)
Definition number_of_decimal (neg : bool) (m e : Z) : number :=
  let signed z := if neg then - z else z in
  if m =? 0 then S754_zero neg
  else if 0 <=? e then binary_normalize prec emax (signed (m * 10 ^ e)) 0 neg
  else
    let d := 10 ^ (- e) in
    let s := Z.max 0 (Z.log2 d + 66 - Z.log2 m) in
    let '(q, r) := Z.div_eucl (Z.shiftl m s) d in
    binary_normalize prec emax
      (signed (2 * q + (if r =? 0 then 0 else 1))) (- (s + 1)) neg.

Definition number_of_literal (neg : bool) (l : literal) : number :=
  match l with
  | NoLiteral => NaN
  | InfinityLiteral => S754_infinity neg
  | DecimalLiteral m e => number_of_decimal neg m e
  end.

Definition parseFloat (s : string) : number :=
  match trimStart s with
  | String "+"%char r => number_of_literal false (strUnsignedDecimalLiteral r)
  | String "-"%char r => number_of_literal true (strUnsignedDecimalLiteral r)
  | t => number_of_literal false (strUnsignedDecimalLiteral t)
  end.

(** *** Division, [<], [Math.round] *)

Definition div (x y : number) : number := SFdiv prec emax x y.

Definition lt (x y : number) : bool := SFltb x y.

(** [Math.round(x)]: the integer nearest to [x], the larger one on a tie;
    [-0] for [-0.5 <= x < 0] and for [-0]. *)
Definition Math_round (x : number) : number :=
  match x with
  | S754_finite s m e =>
      if 0 <=? e then x
      else
        let n := ((if s then Z.neg m else Z.pos m) + 2 ^ (- e - 1)) / 2 ^ (- e) in
        if n =? 0 then S754_zero s else of_Z n
  | _ => x
  end.

(** *** [Number::toString], radix 10 *)

Fixpoint decimal_digits (fuel : nat) (n : Z) (acc : string) : string :=
  match fuel with
  | O => acc
  | S fuel' =>
      let acc' := String (ascii_of_N (48 + Z.to_N (n mod 10))) acc in
      if n <? 10 then acc' else decimal_digits fuel' (n / 10) acc'
  end.

(** The decimal digits of [n >= 0]. *)
Definition decimal (n : Z) : string :=
  decimal_digits (S (Z.to_nat (Z.log2 n))) n "".

(** The decimal representation of an integer. *)
Definition show_int (n : Z) : string :=
  if n <? 0 then String "-" (decimal (- n)) else decimal n.

Fixpoint zeros (n : nat) : string :=
  match n with
  | O => EmptyString
  | S n' => String "0" (zeros n')
  end.

(** [num / den < 10^n], for positive [num] and [den]. *)
Definition below_pow10 (num den n : Z) : bool :=
  if 0 <=? n then num <? den * 10 ^ n else num * 10 ^ (- n) <? den.

Fixpoint first_pow10_above (fuel : nat) (num den n : Z) : Z :=
  match fuel with
  | O => n
  | S fuel' =>
      if below_pow10 num den n then n else first_pow10_above fuel' num den (n + 1)
  end.

(** The integer [n] with [10^(n-1) <= num / den < 10^n]. *)
Definition decimal_exponent (num den : Z) : Z :=
  first_pow10_above 8 num den ((Z.log2 num - Z.log2 den) * 1233 / 4096 - 2).

(** The [k]-digit decimal [s * 10^(n - k)] that reads back as [x], the one
    nearest to the value [num / den] of [x] when there are two; [n] is the
    decimal exponent of [x]. *)
Definition digits_of_length (x : number) (num den n k : Z) : option (Z * Z) :=
  let p := n - k in
  let '(q, r) :=
    if 0 <=? p then Z.div_eucl num (den * 10 ^ p)
    else Z.div_eucl (num * 10 ^ (- p)) den in
  let d := if 0 <=? p then den * 10 ^ p else den in
  let reads s := match x, number_of_decimal false s p with
                 | S754_finite _ m e, S754_finite _ m' e' => Pos.eqb m m' && (e =? e')
                 | _, _ => false
                 end in
  let low := reads q in
  let high := reads (q + 1) in
  let normal s := if s =? 10 ^ k then Some (10 ^ (k - 1), n + 1) else Some (s, n) in
  if low && high then
    match 2 * r ?= d with
    | Lt => normal q
    | Gt => normal (q + 1)
    | Eq => normal (if Z.even q then q else q + 1)
    end
  else if low then normal q
  else if high then normal (q + 1)
  else None.

Fixpoint shortest_digits (fuel : nat) (x : number) (num den n k : Z) : Z * Z * Z :=
  match fuel with
  | O => (num / den, k, n)
  | S fuel' =>
      match digits_of_length x num den n k with
      | Some (s, n') => (s, k, n')
      | None => shortest_digits fuel' x num den n (k + 1)
      end
  end.

(** The text of a positive finite number [m * 2^e]: the integers
    [s], [k], [n] of the language's definition, laid out in positional
    notation for [-5 <= n <= 21] and in exponent notation otherwise. *)
Definition positive_toString (m : positive) (e : Z) : string :=
  let num := if 0 <=? e then Z.pos m * 2 ^ e else Z.pos m in
  let den := if 0 <=? e then 1 else 2 ^ (- e) in
  let '(s, k, n) :=
    shortest_digits 17 (S754_finite false m e) num den (decimal_exponent num den) 1 in
  let ds := decimal s in
  if (-5 <=? n) && (n <=? 21) then
    if k <=? n then String.append ds (zeros (Z.to_nat (n - k)))
    else if 0 <? n then
      String.append (substring 0 (Z.to_nat n) ds)
        (String "." (substring (Z.to_nat n) (Z.to_nat (k - n)) ds))
    else String.append "0." (String.append (zeros (Z.to_nat (- n))) ds)
  else
    let ex := String.append (if 0 <=? n - 1 then "e+" else "e-")
                (decimal (Z.abs (n - 1))) in
    if k =? 1 then String.append ds ex
    else String.append (substring 0 1 ds)
           (String "." (String.append (substring 1 (Z.to_nat (k - 1)) ds) ex)).

Definition toString (x : number) : string :=
  match x with
  | S754_nan => "NaN"
  | S754_zero _ => "0"
  | S754_infinity s => if s then "-Infinity" else "Infinity"
  | S754_finite s m e =>
      if s then String "-" (positive_toString m e) else positive_toString m e
  end.

End Js.

(** ** Data model *)

(** [interface AuthData] *)
Record AuthData : Type := {
  accessToken : string;
  accountId : option string
}.

(** One window of [interface RateLimits]:
    [{ used_percent: number; resets_in_seconds?: number }]. *)
Record RateWindow : Type := {
  used_percent : Js.number;
  resets_in_seconds : option Js.number
}.

(** [interface RateLimits] *)
Record RateLimits : Type := {
  primary : option RateWindow;
  secondary : option RateWindow
}.

(** The [type] argument of [schedulePing], which is only ever ['Primary'] or
    ['Secondary']. *)
Inductive WindowType : Type := Primary | Secondary.

(** A timer of the event loop that has been set, has not fired and has not
    been cleared: the handle [setTimeout] returned, the [type] its callback
    captured and the delay it was set with. *)
Record Timer : Type := {
  handle : nat;
  window : WindowType;
  delay : Js.number
}.

(** A call of [pingCodex] whose promise has not settled, with the code that
    waits for it: the rest of [checkLimits] (lines 325-347), the rest of a
    timer callback (lines 259-279) or the [then] callback of an immediate
    ping (lines 294-311). *)
Inductive Ping : Type :=
| PollPing
| TimerPing (type : WindowType)
| ImmediatePing (type : WindowType).

(** The module-level variables of [monitor.ts] (lines 19-20 and 97-103),
    followed by the state of the runtime they refer to: the live timers, the
    next fresh handle and the pings in flight.  [pingCount] only ever counts
    up from 0 by one, which binary64 does exactly below 2^53; it is kept as
    an integer.  A [Date] is kept as its time value. *)
Record State : Type := {
  primaryEnabled : bool;
  secondaryEnabled : bool;
  primaryResetTime : option Js.number;
  secondaryResetTime : option Js.number;
  primaryTimer : option nat;
  secondaryTimer : option nat;
  lastPingTime : option Z;
  pingCount : Z;
  lastLimits : option RateLimits;
  timers : list Timer;
  nextHandle : nat;
  inflight : list Ping
}.

Definition initial : State := {|
  primaryEnabled := true;
  secondaryEnabled := true;
  primaryResetTime := None;
  secondaryResetTime := None;
  primaryTimer := None;
  secondaryTimer := None;
  lastPingTime := None;
  pingCount := 0;
  lastLimits := None;
  timers := [];
  nextHandle := 0%nat;
  inflight := []
|}.

(** What the environment answers during one task: the values of
    [Date.now()], [loadAuth()] and [new Date()] inside one call of
    [schedulePing] (lines 248, 288 and 291), and, for the code that applies
    new limits, the value of [Date.now()] it reads first and the answers to
    the two calls of [schedulePing] it may make. *)
Record ArmReadings : Type := {
  arm_now : Z;
  arm_auth : option AuthData;
  arm_date : Z
}.

Record Readings : Type := {
  now2 : Z;
  arm_primary : ArmReadings;
  arm_secondary : ArmReadings
}.

(** What a request of [pingCodex] comes to: a response (of any status,
    since [validateStatus] accepts all), an axios error that carries a
    response, or any other failure. *)
Inductive Transport : Type :=
| Response (headers : gmap string string)
| ErrorWithResponse (headers : gmap string string)
| ErrorNoResponse.

(** The outcome of a block of statements: the state reached, and whether
    an exception is propagating out of it. *)
Inductive Completion : Type :=
| Normal (st : State)
| Throw (st : State).

(** The tasks of the event loop. *)
Inductive Event : Type :=
| CheckLimits (auth : option AuthData)
| TimerFires (h : nat) (auth : option AuthData) (date : Z)
| PingSettles (i : nat) (t : Transport) (r : Readings)
| Message (command : string) (enabled : bool) (r : ArmReadings).

(** ** The limit reader (lines 34-58) *)

(** ToBoolean of [headers[...]]: a missing entry and the empty string are
    falsy. *)
Definition truthy_string (v : option string) : bool :=
  match v with
  | Some s => negb (String.eqb s "")
  | None => false
  end.

(** [parseHeader] (lines 34-39):
    [const v = headers[name] || headers[name.toLowerCase()];
     if (!v) return null; const n = parseFloat(v); return isNaN(n) ? null : n;] *)
Definition parseHeader (headers : gmap string string) (name : string)
  : option Js.number :=
  let v := if truthy_string (headers !! name) then headers !! name
           else headers !! Js.toLowerCase name in
  match v with
  | Some s =>
      if negb (truthy_string v) then None
      else let n := Js.parseFloat s in
           if Js.isNaN n then None else Some n
  | None => None
  end.

(** [x || undefined] for [x : number | null]. *)
Definition or_undefined (x : option Js.number) : option Js.number :=
  match x with
  | Some n => if Js.truthy n then Some n else None
  | None => None
  end.

(** The statements of [extractLimits] for one window (lines 43-49 for the
    primary one, 50-56 for the secondary one):
    [const p = parseHeader(headers, used);
     if (p !== null) limits.W = { used_percent: p,
       resets_in_seconds: parseHeader(headers, reset) || undefined };] *)
Definition extractWindow (headers : gmap string string) (used reset : string)
  : option RateWindow :=
  match parseHeader headers used with
  | Some p => Some {| used_percent := p;
                      resets_in_seconds := or_undefined (parseHeader headers reset) |}
  | None => None
  end.

(** [extractLimits] (lines 41-58); it ends with
    [return limits.primary || limits.secondary ? limits : null;]. *)
Definition extractLimits (headers : gmap string string) : option RateLimits :=
  let limits :=
    {| primary := extractWindow headers "x-codex-primary-used-percent"
                    "x-codex-primary-reset-after-seconds";
       secondary := extractWindow headers "x-codex-secondary-used-percent"
                      "x-codex-secondary-reset-after-seconds" |} in
  match primary limits, secondary limits with
  | None, None => None
  | _, _ => Some limits
  end.

(** [pingCodex] (lines 60-95), as a function of what the request came to;
    the credentials only shape the request. *)
Definition pingCodex (t : Transport) : option RateLimits :=
  match t with
  | Response headers => extractLimits headers
  | ErrorWithResponse headers => extractLimits headers
  | ErrorNoResponse => None
  end.

(** ** The scheduler state, window by window

    [monitor.ts] keeps one variable of each kind per window and repeats its
    statements for ['Primary'] and ['Secondary']; the accessors below select
    the variables of a window, and the setters assign one variable. *)

Definition enabledOf (w : WindowType) (st : State) : bool :=
  match w with Primary => primaryEnabled st | Secondary => secondaryEnabled st end.

Definition resetTimeOf (w : WindowType) (st : State) : option Js.number :=
  match w with Primary => primaryResetTime st | Secondary => secondaryResetTime st end.

Definition timerOf (w : WindowType) (st : State) : option nat :=
  match w with Primary => primaryTimer st | Secondary => secondaryTimer st end.

Definition windowOf (w : WindowType) (limits : RateLimits) : option RateWindow :=
  match w with Primary => primary limits | Secondary => secondary limits end.

Definition armOf (w : WindowType) (r : Readings) : ArmReadings :=
  match w with Primary => arm_primary r | Secondary => arm_secondary r end.

Definition set_enabled (w : WindowType) (b : bool) (st : State) : State :=
  {| primaryEnabled := match w with Primary => b | Secondary => primaryEnabled st end;
     secondaryEnabled := match w with Primary => secondaryEnabled st | Secondary => b end;
     primaryResetTime := primaryResetTime st;
     secondaryResetTime := secondaryResetTime st;
     primaryTimer := primaryTimer st;
     secondaryTimer := secondaryTimer st;
     lastPingTime := lastPingTime st;
     pingCount := pingCount st;
     lastLimits := lastLimits st;
     timers := timers st;
     nextHandle := nextHandle st;
     inflight := inflight st |}.

Definition set_resetTime (w : WindowType) (t : option Js.number) (st : State) : State :=
  {| primaryEnabled := primaryEnabled st;
     secondaryEnabled := secondaryEnabled st;
     primaryResetTime := match w with Primary => t | Secondary => primaryResetTime st end;
     secondaryResetTime := match w with Primary => secondaryResetTime st | Secondary => t end;
     primaryTimer := primaryTimer st;
     secondaryTimer := secondaryTimer st;
     lastPingTime := lastPingTime st;
     pingCount := pingCount st;
     lastLimits := lastLimits st;
     timers := timers st;
     nextHandle := nextHandle st;
     inflight := inflight st |}.

Definition set_timer (w : WindowType) (h : option nat) (st : State) : State :=
  {| primaryEnabled := primaryEnabled st;
     secondaryEnabled := secondaryEnabled st;
     primaryResetTime := primaryResetTime st;
     secondaryResetTime := secondaryResetTime st;
     primaryTimer := match w with Primary => h | Secondary => primaryTimer st end;
     secondaryTimer := match w with Primary => secondaryTimer st | Secondary => h end;
     lastPingTime := lastPingTime st;
     pingCount := pingCount st;
     lastLimits := lastLimits st;
     timers := timers st;
     nextHandle := nextHandle st;
     inflight := inflight st |}.

Definition set_lastLimits (l : option RateLimits) (st : State) : State :=
  {| primaryEnabled := primaryEnabled st;
     secondaryEnabled := secondaryEnabled st;
     primaryResetTime := primaryResetTime st;
     secondaryResetTime := secondaryResetTime st;
     primaryTimer := primaryTimer st;
     secondaryTimer := secondaryTimer st;
     lastPingTime := lastPingTime st;
     pingCount := pingCount st;
     lastLimits := l;
     timers := timers st;
     nextHandle := nextHandle st;
     inflight := inflight st |}.

Definition set_timers (ts : list Timer) (st : State) : State :=
  {| primaryEnabled := primaryEnabled st;
     secondaryEnabled := secondaryEnabled st;
     primaryResetTime := primaryResetTime st;
     secondaryResetTime := secondaryResetTime st;
     primaryTimer := primaryTimer st;
     secondaryTimer := secondaryTimer st;
     lastPingTime := lastPingTime st;
     pingCount := pingCount st;
     lastLimits := lastLimits st;
     timers := ts;
     nextHandle := nextHandle st;
     inflight := inflight st |}.

Definition set_inflight (ps : list Ping) (st : State) : State :=
  {| primaryEnabled := primaryEnabled st;
     secondaryEnabled := secondaryEnabled st;
     primaryResetTime := primaryResetTime st;
     secondaryResetTime := secondaryResetTime st;
     primaryTimer := primaryTimer st;
     secondaryTimer := secondaryTimer st;
     lastPingTime := lastPingTime st;
     pingCount := pingCount st;
     lastLimits := lastLimits st;
     timers := timers st;
     nextHandle := nextHandle st;
     inflight := ps |}.

(** ** The runtime: timers and pings in flight *)

(** The timer [t] is the one [h] refers to. *)
Definition has_handle (h : nat) (t : Timer) : bool := Nat.eqb (handle t) h.

Definition find_timer (h : nat) (st : State) : option Timer :=
  List.find (has_handle h) (timers st).

(** The timer with handle [h] stops being live. *)
Definition removeTimer (h : nat) (st : State) : State :=
  set_timers (List.filter (fun t => negb (has_handle h t)) (timers st)) st.

(** [clearTimeout(h)]: nothing happens when the timer already fired or was
    cleared. *)
Definition clearTimeout (h : nat) (st : State) : State := removeTimer h st.

(** [setTimeout(callback, d)] for the callback of [schedulePing] with the
    given [type]: a live timer under a handle never used before. *)
Definition setTimeout (type : WindowType) (d : Js.number) (st : State) : nat * State :=
  let h := nextHandle st in
  (h,
   {| primaryEnabled := primaryEnabled st;
      secondaryEnabled := secondaryEnabled st;
      primaryResetTime := primaryResetTime st;
      secondaryResetTime := secondaryResetTime st;
      primaryTimer := primaryTimer st;
      secondaryTimer := secondaryTimer st;
      lastPingTime := lastPingTime st;
      pingCount := pingCount st;
      lastLimits := lastLimits st;
      timers := timers st ++ [{| handle := h; window := type; delay := d |}];
      nextHandle := S h;
      inflight := inflight st |}).

(** [pingCount++; lastPingTime = new Date();] followed by the call of
    [pingCodex], whose promise [p] is left pending. *)
Definition startPing (date : Z) (p : Ping) (st : State) : State :=
  {| primaryEnabled := primaryEnabled st;
     secondaryEnabled := secondaryEnabled st;
     primaryResetTime := primaryResetTime st;
     secondaryResetTime := secondaryResetTime st;
     primaryTimer := primaryTimer st;
     secondaryTimer := secondaryTimer st;
     lastPingTime := Some date;
     pingCount := pingCount st + 1;
     lastLimits := lastLimits st;
     timers := timers st;
     nextHandle := nextHandle st;
     inflight := inflight st ++ [p] |}.

(** The live timers of a window. *)
Definition liveTimers (w : WindowType) (st : State) : list Timer :=
  List.filter (fun t => match window t, w with
                        | Primary, Primary | Secondary, Secondary => true
                        | _, _ => false
                        end) (timers st).

(** ** [schedulePing] (lines 243-315) *)

(** [new Date(t).toISOString()] raises a [RangeError] unless [t] is a time
    value: a finite number of magnitude at most 8.64e15. *)
Definition validDate (t : Js.number) : bool :=
  Js.isFinite t && Js.le (SFabs t) (Js.of_Z 8640000000000000).

(** The three guards, then [delay = Math.max(0, resetTime - now)]; a
    positive delay sets a timer and stores its handle in the variable of
    [type]; otherwise the ping is started at once when there are
    credentials, and its [then] callback waits for it. *)
Definition schedulePing (r : ArmReadings) (resetTime : option Js.number)
    (type : WindowType) (st : State) : Completion :=
  match resetTime with
  | None => Normal st
  | Some t =>
      if negb (Js.truthy t) then Normal st
      else if negb (enabledOf type st) then Normal st
      else
        let now := Js.of_Z (arm_now r) in
        let delay := Js.Math_max Js.zero (Js.sub t now) in
        if Js.gt delay Js.zero then
          let '(timer, st1) := setTimeout type delay st in
          let st2 := set_timer type (Some timer) st1 in
          (* line 286: the log line formats [new Date(resetTime)] *)
          if validDate t then Normal st2 else Throw st2
        else
          match arm_auth r with
          | Some auth => Normal (startPing (arm_date r) (ImmediatePing type) st)
          | None => Normal st
          end
  end.

(** ** Applying new limits (lines 260-273, 295-308 and 330-345, which are
    the same statements) *)

(** [limits.W?.resets_in_seconds ? now + limits.W.resets_in_seconds * 1000 : null] *)
Definition newReset (now : Z) (w : option RateWindow) : option Js.number :=
  match w with
  | Some {| resets_in_seconds := Some s |} =>
      if Js.truthy s then Some (Js.add (Js.of_Z now) (Js.mul s (Js.of_Z 1000)))
      else None
  | _ => None
  end.

(** [if (timer) clearTimeout(timer);] *)
Definition clearStored (w : WindowType) (st : State) : State :=
  match timerOf w st with
  | Some h => clearTimeout h st
  | None => st
  end.

(** The block of one window:
    [if (newReset !== resetTime) { if (timer) clearTimeout(timer);
       resetTime = newReset; if (enabled) schedulePing(newReset, W); }] *)
Definition reconcileWindow (w : WindowType) (r : Readings)
    (limits : RateLimits) (st : State) : Completion :=
  let candidate := newReset (now2 r) (windowOf w limits) in
  if Js.strict_neq candidate (resetTimeOf w st) then
    let st1 := set_resetTime w candidate (clearStored w st) in
    if enabledOf w st1 then schedulePing (armOf w r) candidate w st1
    else Normal st1
  else Normal st.

(** Sequencing: what follows a block runs unless the block threw. *)
Definition andThen (c : Completion) (k : State -> Completion) : Completion :=
  match c with
  | Normal st => k st
  | Throw st => Throw st
  end.

(** The state a task ends in: an exception that leaves an [async] function,
    a [then] callback or an event handler undoes nothing. *)
Definition stateOf (c : Completion) : State :=
  match c with Normal st => st | Throw st => st end.

(** [lastLimits = limits;] then the block of the primary window, then the
    block of the secondary window. *)
Definition applyLimits (r : Readings) (limits : RateLimits) (st : State)
  : Completion :=
  andThen (reconcileWindow Primary r limits (set_lastLimits (Some limits) st))
          (reconcileWindow Secondary r limits).

(** ** The tasks *)

(** [checkLimits] (lines 317-348) up to its [await]: without credentials it
    returns, otherwise the ping is started. [updateStatusBar] only writes
    the status bar item, which is not part of this state. *)
Definition checkLimits_start (auth : option AuthData) (st : State) : State :=
  match auth with
  | None => st
  | Some _ => set_inflight (inflight st ++ [PollPing]) st
  end.

(** The rest of [checkLimits], once the ping has settled with [limits]. *)
Definition checkLimits_resume (r : Readings) (limits : option RateLimits)
    (st : State) : State :=
  match limits with
  | None => st
  | Some l => stateOf (applyLimits r l st)
  end.

(** The callback of a timer (lines 252-280) up to its [await]. *)
Definition timerCallback_start (type : WindowType) (auth : option AuthData)
    (date : Z) (st : State) : State :=
  match auth with
  | Some _ => startPing date (TimerPing type) st
  | None => set_timer type None st
  end.

(** The rest of the callback: the new limits are applied, and the stored
    handle of the callback's window is reset (lines 278-279) unless an
    exception ended the callback before. *)
Definition timerCallback_resume (type : WindowType) (r : Readings)
    (limits : option RateLimits) (st : State) : State :=
  let c := match limits with
           | Some l => applyLimits r l st
           | None => Normal st
           end in
  match c with
  | Normal st1 => set_timer type None st1
  | Throw st1 => st1
  end.

(** The [then] callback of an immediate ping (lines 293-312). *)
Definition immediate_resume (r : Readings) (limits : option RateLimits)
    (st : State) : State :=
  match limits with
  | None => st
  | Some l => stateOf (applyLimits r l st)
  end.

(** ToBoolean of a stored handle and of a stored reset time. *)
Definition truthy_handle (h : option nat) : bool :=
  match h with Some _ => true | None => false end.

Definition truthy_time (t : option Js.number) : bool :=
  match t with Some n => Js.truthy n | None => false end.

(** The handler of the webview's messages (lines 217-235), for one window:
    [enabled = message.enabled;
     if (!enabled && timer) { clearTimeout(timer); timer = null; }
     else if (enabled && resetTime) { schedulePing(resetTime, W); }] *)
Definition toggle (w : WindowType) (enabled : bool) (r : ArmReadings)
    (st : State) : State :=
  let st1 := set_enabled w enabled st in
  if negb (enabledOf w st1) && truthy_handle (timerOf w st1) then
    set_timer w None (clearStored w st1)
  else if enabledOf w st1 && truthy_time (resetTimeOf w st1) then
    stateOf (schedulePing r (resetTimeOf w st1) w st1)
  else st1.

(** [message.command] selects the window; other messages are ignored. *)
Definition onDidReceiveMessage (command : string) (enabled : bool)
    (r : ArmReadings) (st : State) : State :=
  if String.eqb command "togglePrimary" then toggle Primary enabled r st
  else if String.eqb command "toggleSecondary" then toggle Secondary enabled r st
  else st.

(** The [i]-th ping in flight, and the others. *)
Fixpoint take_nth {A : Type} (i : nat) (l : list A) : option (A * list A) :=
  match l, i with
  | [], _ => None
  | x :: l', O => Some (x, l')
  | x :: l', S i' =>
      match take_nth i' l' with
      | Some (y, rest) => Some (y, x :: rest)
      | None => None
      end
  end.

(** One task of the event loop; [None] when the event cannot happen in this
    state (the timer is not live, there is no such ping in flight). *)
Definition step (e : Event) (st : State) : option State :=
  match e with
  | CheckLimits auth => Some (checkLimits_start auth st)
  | TimerFires h auth date =>
      match find_timer h st with
      | Some t => Some (timerCallback_start (window t) auth date (removeTimer h st))
      | None => None
      end
  | PingSettles i t r =>
      match take_nth i (inflight st) with
      | Some (p, rest) =>
          let st1 := set_inflight rest st in
          Some match p with
               | PollPing => checkLimits_resume r (pingCodex t) st1
               | TimerPing type => timerCallback_resume type r (pingCodex t) st1
               | ImmediatePing _ => immediate_resume r (pingCodex t) st1
               end
      | None => None
      end
  | Message command enabled r => Some (onDidReceiveMessage command enabled r st)
  end.

(** The tasks [es], one after the other. *)
Fixpoint run (es : list Event) (st : State) : option State :=
  match es with
  | [] => Some st
  | e :: es' =>
      match step e st with
      | Some st' => run es' st'
      | None => None
      end
  end.

(** The states the extension can be in. *)
Definition reachable (st : State) : Prop :=
  exists es, run es initial = Some st.

(** ** The status bar and the details panel *)

(** What [updateStatusBar] writes to [statusBarItem]. *)
Record StatusBarItem : Type := {
  text : string;
  tooltip : string
}.

(** The local [nextPingTime] of [updateStatusBar] (lines 116-125):
    [if (primaryEnabled && primaryResetTime) nextPingTime = primaryResetTime;
     if (secondaryEnabled && secondaryResetTime) {
       if (!nextPingTime || secondaryResetTime < nextPingTime)
         nextPingTime = secondaryResetTime; }] *)
Definition nextPingTime (st : State) : option Js.number :=
  let next :=
    if primaryEnabled st && truthy_time (primaryResetTime st)
    then primaryResetTime st else None in
  match secondaryResetTime st with
  | Some s =>
      if secondaryEnabled st && Js.truthy s then
        match next with
        | Some n => if negb (Js.truthy n) || Js.lt s n then Some s else next
        | None => Some s
        end
      else next
  | None => next
  end.

(** [updateStatusBar] (lines 105-137), once the item exists; [auth] and
    [now] are what [loadAuth()] and [Date.now()] answer. *)
Definition updateStatusBar (auth : option AuthData) (now : Z) (st : State)
  : StatusBarItem :=
  match auth with
  | None =>
      {| text := "$(sync)";
         tooltip := "Authentication required. Run `codex login`." |}
  | Some _ =>
      match nextPingTime st with
      | Some t =>
          if Js.truthy t then
            let minutes :=
              Js.Math_round (Js.div (Js.sub t (Js.of_Z now)) (Js.of_Z 60000)) in
            {| text := String.append "$(sync) "
                         (String.append (Js.toString minutes) "m");
               tooltip := String.append "Next ping in "
                            (String.append (Js.toString minutes)
                               " minutes. Click to view details.") |}
          else {| text := "$(sync)"; tooltip := "Click to view details" |}
      | None => {| text := "$(sync)"; tooltip := "Click to view details" |}
      end
  end.

(** [formatTime] (lines 139-143). *)
Definition formatTime (ms : Js.number) : string :=
  if Js.lt ms (Js.of_Z 60000) then
    String.append (Js.toString (Js.Math_round (Js.div ms (Js.of_Z 1000)))) "s"
  else if Js.lt ms (Js.of_Z 3600000) then
    String.append (Js.toString (Js.Math_round (Js.div ms (Js.of_Z 60000)))) "m"
  else
    String.append (Js.toString (Js.Math_round (Js.div ms (Js.of_Z 3600000)))) "h".

(** The variable [infoPanel] and the intervals that [createInfoPanel] has
    set with [setInterval(updateContent, 1000)] and that are not cleared.
    A panel is known by the interval its [onDidDispose] handler holds. *)
Record Panels : Type := {
  infoPanel : option nat;
  intervals : list nat;
  nextInterval : nat
}.

Definition no_panel : Panels :=
  {| infoPanel := None; intervals := []; nextInterval := 0%nat |}.

(** [createInfoPanel] (lines 145-241): a panel that exists is revealed;
    otherwise one is created and its content refreshed every second. *)
Definition createInfoPanel (ui : Panels) : Panels :=
  match infoPanel ui with
  | Some _ => ui
  | None =>
      {| infoPanel := Some (nextInterval ui);
         intervals := intervals ui ++ [nextInterval ui];
         nextInterval := S (nextInterval ui) |}
  end.

(** The [onDidDispose] handler of the panel whose interval is [i]
    (lines 237-240): [clearInterval(interval); infoPanel = undefined;]. *)
Definition onDidDispose (i : nat) (ui : Panels) : Panels :=
  {| infoPanel := None;
     intervals := List.filter (fun j => negb (Nat.eqb j i)) (intervals ui);
     nextInterval := nextInterval ui |}.

(** The command [codex-ping.showInfo], and the user closing the panel that
    is open. *)
Inductive PanelEvent : Type := ShowInfo | ClosePanel.

Definition panel_step (e : PanelEvent) (ui : Panels) : option Panels :=
  match e with
  | ShowInfo => Some (createInfoPanel ui)
  | ClosePanel =>
      match infoPanel ui with
      | Some i => Some (onDidDispose i ui)
      | None => None
      end
  end.

Fixpoint panel_run (es : list PanelEvent) (ui : Panels) : option Panels :=
  match es with
  | [] => Some ui
  | e :: es' =>
      match panel_step e ui with
      | Some ui' => panel_run es' ui'
      | None => None
      end
  end.

(** ** Vocabulary of the properties *)

(** The names of the two headers of a window. *)
Definition usedHeader (w : WindowType) : string :=
  match w with
  | Primary => "x-codex-primary-used-percent"
  | Secondary => "x-codex-secondary-used-percent"
  end.

Definition resetHeader (w : WindowType) : string :=
  match w with
  | Primary => "x-codex-primary-reset-after-seconds"
  | Secondary => "x-codex-secondary-reset-after-seconds"
  end.

(** The header [name] is there and [parseFloat] makes the number [n] of
    it, which is not NaN. *)
Definition headerNumber (headers : gmap string string) (name : string)
    (n : Js.number) : Prop :=
  exists s, headers !! name = Some s /\ Js.parseFloat s = n /\ Js.isNaN n = false.

(** The window [w] of what [extractLimits] returns, if any. *)
Definition extracted (w : WindowType) (headers : gmap string string)
  : option RateWindow :=
  match extractLimits headers with
  | Some limits => windowOf w limits
  | None => None
  end.

(** The specification's reading of a header: its value parses as a finite
    number. *)
Definition parsesFinite (headers : gmap string string) (name : string) : bool :=
  match headers !! name with
  | Some s => Js.isFinite (Js.parseFloat s)
  | None => false
  end.

(** Headers that name some of the four fields. *)
Definition headersOf (pu pr su sr : option string) : gmap string string :=
  let put (k : string) (v : option string) (m : gmap string string) :=
    match v with Some x => <[k:=x]> m | None => m end in
  put (usedHeader Primary) pu (put (resetHeader Primary) pr
    (put (usedHeader Secondary) su (put (resetHeader Secondary) sr ∅))).

(** [resets_in_seconds] is absent for the window [w] of a snapshot. *)
Definition resetAbsent (w : WindowType) (limits : RateLimits) : Prop :=
  match windowOf w limits with
  | Some rw => resets_in_seconds rw = None
  | None => True
  end.

(** The block of the window [w] is reached when new limits are applied: the
    secondary block runs once the primary block has completed. *)
Definition blockRuns (w : WindowType) (r : Readings) (limits : RateLimits)
    (st : State) : Prop :=
  match w with
  | Primary => True
  | Secondary =>
      exists st1,
        reconcileWindow Primary r limits (set_lastLimits (Some limits) st) = Normal st1
  end.

(** A ping that obtains no snapshot: the transport failed without a
    response, or the headers of the response hold no limit that parses. *)
Definition noSnapshot (t : Transport) : Prop :=
  t = ErrorNoResponse \/
  exists headers, (t = Response headers \/ t = ErrorWithResponse headers) /\
                  extractLimits headers = None.

(** The handles of the live timers of a window. *)
Definition liveHandles (w : WindowType) (st : State) : list nat :=
  List.map handle (liveTimers w st).

(** The answers of [loadAuth()] that a task may read. *)
Definition credentialsOf (e : Event) : list (option AuthData) :=
  match e with
  | CheckLimits auth => [auth]
  | TimerFires _ auth _ => [auth]
  | PingSettles _ _ r => [arm_auth (arm_primary r); arm_auth (arm_secondary r)]
  | Message _ _ r => [arm_auth r]
  end.

(** The schedule of a window: its switch, its reset time, the handle it
    holds and its live timers. *)
Definition scheduleOf (w : WindowType) (st : State)
  : bool * option Js.number * option nat * list Timer :=
  (enabledOf w st, resetTimeOf w st, timerOf w st, liveTimers w st).

(** Handles are given out in increasing order, and a handle stored for a
    window refers to no timer of the other window. *)
Definition ownHandles (st : State) : Prop :=
  (forall t, In t (timers st) -> (handle t < nextHandle st)%nat) /\
  (forall w h, timerOf w st = Some h -> (h < nextHandle st)%nat) /\
  (forall w t, In t (timers st) -> timerOf w st = Some (handle t) -> window t = w).

(** Every live timer was set with a delay above zero. *)
Definition positiveDelays (st : State) : Prop :=
  forall t, In t (timers st) -> Js.gt (delay t) Js.zero = true.

(** [lastPingTime] is set exactly when a ping has been counted. *)
Definition counted (st : State) : Prop :=
  0 <= pingCount st /\ (lastPingTime st = None <-> pingCount st = 0).

(** [lastLimits], when set, is a snapshot that [extractLimits] returned. *)
Definition lastExtracted (st : State) : Prop :=
  forall l, lastLimits st = Some l -> exists headers, extractLimits headers = Some l.

(** Every live timer of the window [w] is the one [w]'s handle refers to. *)
Definition tracked (w : WindowType) (st : State) : Prop :=
  forall t, In t (liveTimers w st) -> timerOf w st = Some (handle t).

(** The window [w] has at most one live timer, and if it has one its
    handle refers to it. *)
Definition disciplined (w : WindowType) (st : State) : Prop :=
  liveTimers w st = [] \/
  exists t, liveTimers w st = [t] /\ timerOf w st = Some (handle t).

(** The tasks other than the continuation of a timer callback and a
    message that switches on a window that still has a live timer. *)
Definition keepsHandles (e : Event) (st : State) : Prop :=
  match e with
  | PingSettles i _ _ =>
      forall type rest, take_nth i (inflight st) <> Some (TimerPing type, rest)
  | Message command true _ =>
      (command = "togglePrimary"%string -> liveTimers Primary st = []) /\
      (command = "toggleSecondary"%string -> liveTimers Secondary st = [])
  | _ => True
  end.

(** The minutes that the status bar shows for the reset time [t]. *)
Definition minutesUntil (t : Js.number) (now : Z) : Js.number :=
  Js.Math_round (Js.div (Js.sub t (Js.of_Z now)) (Js.of_Z 60000)).

(** [f] holds of the [n] integers from [lo] on. *)
Fixpoint all_from (f : Z -> bool) (lo : Z) (n : nat) : bool :=
  match n with
  | O => true
  | S n' => if f lo then all_from f (lo + 1) n' else false
  end.

(** [formatTime] shows the whole number of milliseconds [z] as ["60s"]. *)
Definition shows_sixty_seconds (z : Z) : bool :=
  String.eqb (formatTime (Js.of_Z z)) "60s".

(** A firing: a ping that the callback of a timer or an arming after the
    reset instant starts.  The ping of [checkLimits] is not one. *)
Definition firing (p : Ping) : bool :=
  match p with
  | PollPing => false
  | TimerPing _ | ImmediatePing _ => true
  end.

(** The number of firings among the pings [ps]. *)
Definition firings (ps : list Ping) : Z :=
  Z.of_nat (length (List.filter firing ps)).

(** A ping that an arming after the reset instant started. *)
Definition immediate (p : Ping) : bool :=
  match p with
  | ImmediatePing _ => true
  | _ => false
  end.

(** The pings that are in flight while the task [e] runs and that it did
    not start itself: a continuation has taken its own ping off. *)
Definition pending (e : Event) (st : State) : list Ping :=
  match e with
  | PingSettles i _ _ =>
      match take_nth i (inflight st) with
      | Some (_, rest) => rest
      | None => inflight st
      end
  | _ => inflight st
  end.

(** From [st] to [st'] only immediate pings were started, and [pingCount]
    went up by their number. *)
Definition startsImmediate (st st' : State) : Prop :=
  exists new,
    inflight st' = inflight st ++ new /\
    pingCount st' = pingCount st + Z.of_nat (length new) /\
    Forall (fun q => immediate q = true) new.

(** ** Concrete inputs *)

Definition headers_zero_reset : gmap string string :=
  headersOf (Some "10"%string) (Some "0"%string) None None.

Definition headers_over_hundred : gmap string string :=
  headersOf (Some "150"%string) None None None.

Definition headers_both : gmap string string :=
  headersOf (Some "10"%string) (Some "300"%string)
            (Some "5"%string) (Some "400"%string).

Definition headers_no_reset : gmap string string :=
  headersOf (Some "1"%string) (Some "18000"%string) (Some "5"%string) None.

Definition headers_elapsed : gmap string string :=
  headersOf (Some "10"%string) (Some "-1"%string) None None.

Definition headers_empty : gmap string string := headersOf None None None None.

(** The snapshot that [headers_both] holds. *)
Definition snapshot_both : RateLimits :=
  {| primary := Some {| used_percent := Js.parseFloat "10";
                        resets_in_seconds := Some (Js.parseFloat "300") |};
     secondary := Some {| used_percent := Js.parseFloat "5";
                          resets_in_seconds := Some (Js.parseFloat "400") |} |}.

(** A snapshot without a primary reset. *)
Definition snapshot_no_primary_reset : RateLimits :=
  {| primary := Some {| used_percent := Js.parseFloat "10";
                        resets_in_seconds := None |};
     secondary := None |}.

Definition credentials : AuthData :=
  {| accessToken := "token"; accountId := None |}.

Definition armAt (n : Z) (auth : option AuthData) : ArmReadings :=
  {| arm_now := n; arm_auth := auth; arm_date := n |}.

(** The readings of a task that runs at the instant [n], logged in. *)
Definition readingsAt (n : Z) : Readings :=
  {| now2 := n;
     arm_primary := armAt n (Some credentials);
     arm_secondary := armAt n (Some credentials) |}.

(** The same, when [auth.json] is gone by the time [schedulePing] runs. *)
Definition readingsLoggedOut (n : Z) : Readings :=
  {| now2 := n; arm_primary := armAt n None; arm_secondary := armAt n None |}.

Definition startup : Z := 1700000000000.

(** The check at start-up answers: primary resets in 300 s (timer 0),
    secondary in 400 s (timer 1). *)
Definition first_poll : list Event :=
  [ CheckLimits (Some credentials);
    PingSettles 0 (Response headers_both) (readingsAt startup) ].

(** The primary timer fires, and the answer to its ping has no reset-after
    header for the secondary window. *)
Definition fired_without_reset : list Event :=
  first_poll ++
  [ TimerFires 0 (Some credentials) (startup + 300000);
    PingSettles 0 (Response headers_no_reset) (readingsAt (startup + 300005)) ].

(** The primary timer fires and its ping answers: primary resets in 5 h
    (timer 2), secondary in 100 s (timer 3 replaces timer 1). *)
Definition primary_fired : list Event :=
  first_poll ++
  [ TimerFires 0 (Some credentials) (startup + 300000);
    PingSettles 0
      (Response (headersOf (Some "1"%string) (Some "18000"%string)
                           (Some "5"%string) (Some "100"%string)))
      (readingsAt (startup + 300005)) ].

(** What the ping of the secondary timer answers 100 s later. *)
Definition headers_later : gmap string string :=
  headersOf (Some "1"%string) (Some "17900"%string)
            (Some "1"%string) (Some "604800"%string).

(** Then the secondary timer fires and its ping answers. *)
Definition secondary_fired : list Event :=
  primary_fired ++
  [ TimerFires 3 (Some credentials) (startup + 400005);
    PingSettles 0 (Response headers_later) (readingsAt (startup + 400010)) ].

(** The moment the secondary timer has fired and its ping is in flight. *)
Definition secondary_firing : list Event :=
  primary_fired ++ [ TimerFires 3 (Some credentials) (startup + 400005) ].

(** Instead, auto-ping of the primary window is switched off after the
    primary timer fired. *)
Definition primary_disabled : list Event :=
  primary_fired ++
  [ Message "togglePrimary" false (armAt (startup + 350000) (Some credentials)) ].

(** The secondary timer fires as before, and timer 2 comes due five hours
    later. *)
Definition disabled_then_due : list Event :=
  primary_disabled ++
  [ TimerFires 3 (Some credentials) (startup + 400005);
    PingSettles 0 (Response headers_later) (readingsAt (startup + 400010));
    TimerFires 2 (Some credentials) (startup + 18300005) ].

(** The events [es] can happen in this order, started from [initial]. *)
Definition happens (es : list Event) : bool :=
  match run es initial with
  | Some _ => true
  | None => false
  end.

(** The state after the events [es], started from [initial]. *)
Definition after (es : list Event) : State :=
  match run es initial with
  | Some st => st
  | None => initial
  end.

(** ** The built-ins on some inputs *)

Example parseFloat_tenth :
  Js.parseFloat "0.1" = S754_finite false 7205759403792794 (-56).
Proof. vm_compute; reflexivity. Qed.

Example parseFloat_prefix : Js.parseFloat "  12.5abc" = Js.parseFloat "12.5".
Proof. vm_compute; reflexivity. Qed.

Example parseFloat_exponent : Js.parseFloat "3e2" = Js.of_Z 300.
Proof. vm_compute; reflexivity. Qed.

Example parseFloat_ties_to_even :
  Js.parseFloat "9007199254740993" = Js.of_Z 9007199254740992.
Proof. vm_compute; reflexivity. Qed.

Example parseFloat_not_a_number :
  Js.parseFloat "" = Js.NaN /\ Js.parseFloat "abc" = Js.NaN /\
  Js.parseFloat "." = Js.NaN /\ Js.parseFloat "- 5" = Js.NaN.
Proof. repeat apply conj; vm_compute; reflexivity. Qed.

Example parseFloat_infinite :
  Js.parseFloat "Infinity" = S754_infinity false /\
  Js.parseFloat "-Infinity" = S754_infinity true /\
  Js.parseFloat "1e400" = S754_infinity false.
Proof. repeat apply conj; vm_compute; reflexivity. Qed.

Example parseFloat_zero :
  Js.parseFloat "0" = S754_zero false /\ Js.parseFloat "-0" = S754_zero true /\
  Js.parseFloat "1e-400" = S754_zero false.
Proof. repeat apply conj; vm_compute; reflexivity. Qed.

Example reset_instant :
  Js.add (Js.of_Z 1700000000000) (Js.mul (Js.parseFloat "300") (Js.of_Z 1000))
  = Js.of_Z 1700000300000.
Proof. vm_compute; reflexivity. Qed.

Example extractLimits_both : extractLimits headers_both = Some snapshot_both.
Proof. vm_compute; reflexivity. Qed.

Example extractLimits_infinite_used :
  extracted Primary (headersOf (Some "Infinity"%string) None None None)
  = Some {| used_percent := S754_infinity false; resets_in_seconds := None |}.
Proof. vm_compute; reflexivity. Qed.

Example extractLimits_reset_only :
  extractLimits (headersOf None (Some "300"%string) None None) = None.
Proof. vm_compute; reflexivity. Qed.

(** ** The limit reader *)

Lemma usedHeader_lower (w : WindowType) : Js.toLowerCase (usedHeader w) = usedHeader w.
Proof. destruct w; vm_compute; reflexivity. Qed.

Lemma resetHeader_lower (w : WindowType) : Js.toLowerCase (resetHeader w) = resetHeader w.
Proof. destruct w; vm_compute; reflexivity. Qed.

(** On a name in lower case, [parseHeader] yields [n] exactly when the header
    is a non-empty string of which [parseFloat] makes [n], not NaN. *)
Lemma parseHeader_Some (headers : gmap string string) (name : string) (n : Js.number) :
  Js.toLowerCase name = name ->
  parseHeader headers name = Some n <-> headerNumber headers name n.
Proof.
  intros Hlow. unfold parseHeader, headerNumber. rewrite Hlow.
  assert (Hv : (if truthy_string (headers !! name) then headers !! name else headers !! name)
               = headers !! name) by (destruct (truthy_string _); reflexivity).
  rewrite Hv. destruct (headers !! name) as [s|] eqn:Hs; simpl.
  - destruct (String.eqb s "") eqn:He; simpl.
    + apply String.eqb_eq in He. subst s. split; [discriminate|].
      intros (s' & Hs' & Hp & Hnan). inversion Hs'; subst. discriminate.
    + destruct (Js.isNaN (Js.parseFloat s)) eqn:Hn.
      * split; [discriminate|]. intros (s' & Hs' & Hp & Hnan).
        inversion Hs'; subst. congruence.
      * split.
        -- intros H; inversion H; subst. exists s. auto.
        -- intros (s' & Hs' & Hp & _). inversion Hs'; subst. reflexivity.
  - split; [discriminate|]. intros (s' & Hs' & _). discriminate.
Qed.

Lemma parseHeader_None (headers : gmap string string) (name : string) :
  Js.toLowerCase name = name ->
  parseHeader headers name = None <-> ~ exists n, headerNumber headers name n.
Proof.
  intros Hlow. split.
  - intros H (n & Hn). apply parseHeader_Some in Hn; congruence.
  - intros H. destruct (parseHeader headers name) as [n|] eqn:E; [|reflexivity].
    exfalso. apply H. exists n. apply parseHeader_Some; assumption.
Qed.

Lemma or_undefined_Some (x : option Js.number) (n : Js.number) :
  or_undefined x = Some n <-> x = Some n /\ Js.truthy n = true.
Proof.
  unfold or_undefined. destruct x as [m|].
  - destruct (Js.truthy m) eqn:E; split.
    + intros H; inversion H; subst; auto.
    + intros [H _]; exact H.
    + discriminate.
    + intros [H Ht]. inversion H; subst. congruence.
  - split; [discriminate | intros [H _]; discriminate].
Qed.

Lemma extractLimits_unfold (headers : gmap string string) :
  extractLimits headers =
  match extractWindow headers (usedHeader Primary) (resetHeader Primary),
        extractWindow headers (usedHeader Secondary) (resetHeader Secondary) with
  | None, None => None
  | p, s => Some {| primary := p; secondary := s |}
  end.
Proof.
  unfold extractLimits. cbv zeta. simpl.
  destruct (extractWindow headers _ _), (extractWindow headers _ _); reflexivity.
Qed.

(** The window [w] of the result is the window built from [w]'s two headers. *)
Lemma extracted_window (w : WindowType) (headers : gmap string string) :
  extracted w headers = extractWindow headers (usedHeader w) (resetHeader w).
Proof.
  unfold extracted. rewrite extractLimits_unfold.
  destruct (extractWindow headers (usedHeader Primary) _) eqn:Ep,
           (extractWindow headers (usedHeader Secondary) _) eqn:Es;
    destruct w; simpl; symmetry; assumption.
Qed.

Lemma extractLimits_None (headers : gmap string string) :
  extractLimits headers = None <->
  extracted Primary headers = None /\ extracted Secondary headers = None.
Proof.
  rewrite !extracted_window, extractLimits_unfold.
  destruct (extractWindow headers (usedHeader Primary) _),
           (extractWindow headers (usedHeader Secondary) _);
    split; try discriminate; try (intros [? ?]; discriminate); auto.
Qed.

(** C4, as the specification states it, fails: in the headers
    [x-codex-primary-used-percent: 10], [x-codex-primary-reset-after-seconds: 0]
    the reset-after value parses as the finite number 0, and the primary
    window is built without [resets_in_seconds]. *)
Lemma extractLimits_zero_reset_dropped :
  parsesFinite headers_zero_reset (resetHeader Primary) = true /\
  exists rw, extracted Primary headers_zero_reset = Some rw /\
             resets_in_seconds rw = None.
Proof.
  split; [vm_compute; reflexivity|].
  eexists. split; vm_compute; reflexivity.
Qed.

(** C4, amended: [extractLimits] builds the window [w] exactly when [w]'s
    used-percent header is a non-empty string that [parseFloat] does not turn
    into NaN (an infinite value is taken); the window has [resets_in_seconds]
    equal to [n] exactly when the reset-after header parses in that way to
    [n] and [n] is not zero; and the result is [null] exactly when neither
    window's used-percent header parses. *)
Theorem extractLimits_windows (headers : gmap string string) :
  (forall w : WindowType,
      ((exists rw, extracted w headers = Some rw) <->
       (exists n, headerNumber headers (usedHeader w) n)) /\
      (forall rw,
          extracted w headers = Some rw ->
          forall n, resets_in_seconds rw = Some n <->
                    headerNumber headers (resetHeader w) n /\ Js.truthy n = true)) /\
  (extractLimits headers = None <->
   forall w : WindowType, ~ exists n, headerNumber headers (usedHeader w) n).
Proof.
  split.
  - intros w. rewrite extracted_window. unfold extractWindow. split.
    + destruct (parseHeader headers (usedHeader w)) as [p|] eqn:Hp.
      * split; intros _; [exists p | eexists; reflexivity].
        apply parseHeader_Some; auto using usedHeader_lower.
      * split; [intros [rw H]; discriminate|].
        intros Hn. apply parseHeader_None in Hp; auto using usedHeader_lower.
        contradiction.
    + intros rw Hrw n.
      destruct (parseHeader headers (usedHeader w)) as [p|]; [|discriminate].
      inversion Hrw; subst; simpl. rewrite or_undefined_Some.
      rewrite parseHeader_Some by apply resetHeader_lower. reflexivity.
  - rewrite extractLimits_None, !extracted_window. unfold extractWindow. split.
    + intros [Hp Hs] w.
      apply parseHeader_None; [apply usedHeader_lower|].
      destruct w; [destruct (parseHeader headers (usedHeader Primary))
                  | destruct (parseHeader headers (usedHeader Secondary))];
        congruence.
    + intros H. split.
      * pose proof (H Primary) as Hp.
        apply parseHeader_None in Hp; [|apply usedHeader_lower]. rewrite Hp; reflexivity.
      * pose proof (H Secondary) as Hs.
        apply parseHeader_None in Hs; [|apply usedHeader_lower]. rewrite Hs; reflexivity.
Qed.

(** C9, as stated, fails: the header [x-codex-primary-used-percent: 150]
    gives a primary window whose [used_percent] is above 100. *)
Lemma extractLimits_over_hundred :
  exists rw, extracted Primary headers_over_hundred = Some rw /\
             Js.gt (used_percent rw) (Js.of_Z 100) = true.
Proof. eexists. split; vm_compute; reflexivity. Qed.

(** C9, amended: the [used_percent] of a window that [extractLimits] returns
    is the number [parseFloat] makes of the window's used-percent header, and
    is not NaN; no range is imposed on it. *)
Theorem extracted_used_percent (w : WindowType) (headers : gmap string string)
    (rw : RateWindow) :
  extracted w headers = Some rw ->
  headerNumber headers (usedHeader w) (used_percent rw).
Proof.
  rewrite extracted_window. unfold extractWindow.
  destruct (parseHeader headers (usedHeader w)) as [p|] eqn:Hp; [|discriminate].
  intros H; inversion H; subst; simpl.
  apply parseHeader_Some; auto using usedHeader_lower.
Qed.

(** The secondary window of [headers_both]. *)
Lemma extracted_used_percent_witness :
  extracted Secondary headers_both = windowOf Secondary snapshot_both /\
  headerNumber headers_both (usedHeader Secondary) (Js.parseFloat "5").
Proof.
  assert (H : extracted Secondary headers_both = windowOf Secondary snapshot_both)
    by (vm_compute; reflexivity).
  exact (conj H (extracted_used_percent Secondary headers_both _ H)).
Defined.

(** ** The scheduler: what one call changes *)

Lemma schedulePing_cases (r : ArmReadings) (rt : option Js.number)
    (type : WindowType) (st : State) :
  let st' := stateOf (schedulePing r rt type st) in
  st' = st \/
  (exists d, st' = set_timer type (Some (nextHandle st)) (snd (setTimeout type d st))) \/
  st' = startPing (arm_date r) (ImmediatePing type) st.
Proof.
  unfold schedulePing. destruct rt as [t|]; simpl; auto.
  destruct (Js.truthy t); simpl; auto.
  destruct (enabledOf type st); simpl; auto.
  destruct (Js.gt _ _).
  - right; left. eexists. destruct (validDate t); reflexivity.
  - destruct (arm_auth r); simpl; auto.
Qed.

Lemma reconcileWindow_cases (w : WindowType) (r : Readings) (limits : RateLimits)
    (st : State) :
  let candidate := newReset (now2 r) (windowOf w limits) in
  let st1 := set_resetTime w candidate (clearStored w st) in
  let st' := stateOf (reconcileWindow w r limits st) in
  st' = st \/ st' = st1 \/ st' = stateOf (schedulePing (armOf w r) candidate w st1).
Proof.
  unfold reconcileWindow. cbv zeta.
  destruct (Js.strict_neq _ _); simpl; auto.
  destruct (enabledOf w _); simpl; auto.
Qed.

Lemma clearStored_cases (w : WindowType) (st : State) :
  clearStored w st = st \/ exists h, clearStored w st = removeTimer h st.
Proof.
  unfold clearStored, clearTimeout. destruct (timerOf w st); eauto.
Qed.

Lemma schedulePing_pingCount (r : ArmReadings) (rt : option Js.number)
    (type : WindowType) (st : State) :
  pingCount st <= pingCount (stateOf (schedulePing r rt type st)).
Proof.
  destruct (schedulePing_cases r rt type st) as [H|[[d H]|H]]; rewrite H; simpl; lia.
Qed.

Lemma reconcileWindow_pingCount (w : WindowType) (r : Readings)
    (limits : RateLimits) (st : State) :
  pingCount st <= pingCount (stateOf (reconcileWindow w r limits st)).
Proof.
  destruct (reconcileWindow_cases w r limits st) as [H|[H|H]]; rewrite H.
  - lia.
  - destruct (clearStored_cases w st) as [E|[h E]]; rewrite E; simpl; lia.
  - etransitivity; [|apply schedulePing_pingCount].
    destruct (clearStored_cases w st) as [E|[h E]]; rewrite E; simpl; lia.
Qed.

Lemma applyLimits_pingCount (r : Readings) (limits : RateLimits) (st : State) :
  pingCount st <= pingCount (stateOf (applyLimits r limits st)).
Proof.
  unfold applyLimits.
  pose proof (reconcileWindow_pingCount Primary r limits (set_lastLimits (Some limits) st)) as H1.
  destruct (reconcileWindow Primary r limits (set_lastLimits (Some limits) st)) as [s1|s1];
    simpl in *; [|exact H1].
  etransitivity; [exact H1|]. apply reconcileWindow_pingCount.
Qed.

Lemma schedulePing_lastLimits (r : ArmReadings) (rt : option Js.number)
    (type : WindowType) (st : State) :
  lastLimits (stateOf (schedulePing r rt type st)) = lastLimits st.
Proof.
  destruct (schedulePing_cases r rt type st) as [H|[[d H]|H]]; rewrite H; reflexivity.
Qed.

Lemma reconcileWindow_lastLimits (w : WindowType) (r : Readings)
    (limits : RateLimits) (st : State) :
  lastLimits (stateOf (reconcileWindow w r limits st)) = lastLimits st.
Proof.
  destruct (reconcileWindow_cases w r limits st) as [H|[H|H]]; rewrite H;
    rewrite ?schedulePing_lastLimits;
    destruct (clearStored_cases w st) as [E|[h E]]; rewrite ?E; reflexivity.
Qed.

Lemma applyLimits_lastLimits (r : Readings) (limits : RateLimits) (st : State) :
  lastLimits (stateOf (applyLimits r limits st)) = Some limits.
Proof.
  unfold applyLimits.
  pose proof (reconcileWindow_lastLimits Primary r limits (set_lastLimits (Some limits) st)) as H1.
  destruct (reconcileWindow Primary r limits (set_lastLimits (Some limits) st)) as [s1|s1];
    simpl in *; [|exact H1].
  rewrite reconcileWindow_lastLimits. exact H1.
Qed.

(** The block of a window leaves the reset time of the other window alone. *)
Lemma schedulePing_resetTime (r : ArmReadings) (rt : option Js.number)
    (type w : WindowType) (st : State) :
  resetTimeOf w (stateOf (schedulePing r rt type st)) = resetTimeOf w st.
Proof.
  destruct (schedulePing_cases r rt type st) as [H|[[d H]|H]]; rewrite H;
    destruct w, type; reflexivity.
Qed.

Lemma reconcileWindow_resetTime_other (w w' : WindowType) (r : Readings)
    (limits : RateLimits) (st : State) :
  w <> w' ->
  resetTimeOf w' (stateOf (reconcileWindow w r limits st)) = resetTimeOf w' st.
Proof.
  intros Hne.
  destruct (reconcileWindow_cases w r limits st) as [H|[H|H]]; rewrite H;
    rewrite ?schedulePing_resetTime;
    destruct (clearStored_cases w st) as [E|[h E]]; rewrite ?E;
    destruct w, w'; try reflexivity; congruence.
Qed.

Lemma reconcileWindow_resetTime_differs (w : WindowType) (r : Readings)
    (limits : RateLimits) (st : State) :
  Js.strict_neq (newReset (now2 r) (windowOf w limits)) (resetTimeOf w st) = true ->
  resetTimeOf w (stateOf (reconcileWindow w r limits st))
  = newReset (now2 r) (windowOf w limits).
Proof.
  intros Hd. unfold reconcileWindow. cbv zeta. rewrite Hd.
  destruct (enabledOf w _); simpl; rewrite ?schedulePing_resetTime;
    destruct (clearStored_cases w st) as [E|[h E]]; rewrite ?E;
    destruct w; reflexivity.
Qed.

(** ** Missing reset information *)

(** C1, as stated, fails: after the start-up check the secondary window has
    [resetAt = startup + 400000] and the live timer 1; the primary timer
    fires and the snapshot of its ping has no [resets_in_seconds] for the
    secondary window (the reset-after header is missing); applying it sets
    the secondary [resetAt] to [null] and cancels timer 1. *)
Lemma reconcile_absent_reset_clears :
  (exists rw, extracted Secondary headers_no_reset = Some rw /\
              resets_in_seconds rw = None) /\
  happens first_poll = true /\
  secondaryResetTime (after first_poll) = Some (Js.of_Z (startup + 400000)) /\
  liveHandles Secondary (after first_poll) = [1%nat] /\
  happens fired_without_reset = true /\
  secondaryResetTime (after fired_without_reset) = None /\
  liveHandles Secondary (after fired_without_reset) = [].
Proof.
  split; [eexists; split; vm_compute; reflexivity|].
  repeat apply conj; vm_compute; reflexivity.
Qed.

(** C1, amended: when [resets_in_seconds] is absent for the window [w] of
    the snapshot, the block of [w] leaves everything as it is if [w]'s
    [resetAt] is already [null]; otherwise it cancels the timer whose handle
    [w] holds, sets [resetAt] to [null] and arms nothing.  Either way [w]'s
    [resetAt] is [null] once the new limits have been applied. *)
Theorem reconcile_absent_reset (w : WindowType) (r : Readings)
    (limits : RateLimits) (st : State) :
  resetAbsent w limits ->
  reconcileWindow w r limits st =
    Normal (match resetTimeOf w st with
            | None => st
            | Some _ => set_resetTime w None (clearStored w st)
            end) /\
  (blockRuns w r limits st ->
   resetTimeOf w (stateOf (applyLimits r limits st)) = None).
Proof.
  intros Habs.
  assert (Hc : newReset (now2 r) (windowOf w limits) = None).
  { unfold resetAbsent in Habs. unfold newReset.
    destruct (windowOf w limits) as [[u [s|]]|]; simpl in *; congruence. }
  assert (Hblock : forall s,
             reconcileWindow w r limits s =
             Normal (match resetTimeOf w s with
                     | None => s
                     | Some _ => set_resetTime w None (clearStored w s)
                     end)).
  { intros s. unfold reconcileWindow. cbv zeta. rewrite Hc.
    destruct (resetTimeOf w s); simpl; [|reflexivity].
    destruct (enabledOf w _); reflexivity. }
  split; [apply Hblock|].
  assert (Hnone : forall s, resetTimeOf w (stateOf (reconcileWindow w r limits s)) = None).
  { intros s. rewrite Hblock. simpl.
    destruct (resetTimeOf w s) eqn:E; [|exact E].
    destruct (clearStored_cases w s) as [E'|[h E']]; rewrite E'; destruct w; reflexivity. }
  unfold applyLimits. destruct w.
  - intros _.
    pose proof (Hnone (set_lastLimits (Some limits) st)) as H1.
    destruct (reconcileWindow Primary r limits (set_lastLimits (Some limits) st)) as [s1|s1];
      cbn [andThen stateOf] in *; [|exact H1].
    rewrite reconcileWindow_resetTime_other by discriminate. exact H1.
  - intros [s1 Hs1]. rewrite Hs1. cbn [andThen]. apply Hnone.
Qed.

(** A snapshot without a primary reset, applied after the start-up check. *)
Lemma reconcile_absent_reset_witness :
  resetAbsent Primary snapshot_no_primary_reset /\
  resetTimeOf Primary
    (stateOf (applyLimits (readingsAt (startup + 60000)) snapshot_no_primary_reset
                (after first_poll))) = None.
Proof.
  assert (H : resetAbsent Primary snapshot_no_primary_reset) by reflexivity.
  split; [exact H|].
  exact (proj2 (reconcile_absent_reset Primary (readingsAt (startup + 60000))
                  snapshot_no_primary_reset (after first_poll) H) I).
Defined.

(** ** A cycle without a snapshot *)

Lemma noSnapshot_pingCodex (t : Transport) : noSnapshot t -> pingCodex t = None.
Proof.
  intros [H|(headers & [H|H] & Hn)]; subst; simpl; auto.
Qed.

(** C5: when the ping of a poll or of a firing obtains no snapshot, the task
    that receives the result leaves both reset times, the live timers,
    [lastLimits], the enable flags, [pingCount] and [lastPingTime] as they
    were.  The tasks that start the cycle do not touch them either: the
    start of [checkLimits] changes nothing but the pings in flight, and a
    firing takes the fired timer off the live timers and nothing else. *)
Theorem no_snapshot_no_change (t : Transport) :
  noSnapshot t ->
  (forall (st st' : State) (i : nat) (r : Readings),
      step (PingSettles i t r) st = Some st' ->
      primaryResetTime st' = primaryResetTime st /\
      secondaryResetTime st' = secondaryResetTime st /\
      timers st' = timers st /\
      lastLimits st' = lastLimits st /\
      primaryEnabled st' = primaryEnabled st /\
      secondaryEnabled st' = secondaryEnabled st /\
      pingCount st' = pingCount st /\
      lastPingTime st' = lastPingTime st) /\
  (forall (st : State) (auth : option AuthData),
      checkLimits_start auth st = set_inflight (inflight (checkLimits_start auth st)) st) /\
  (forall (st st' : State) (h : nat) (auth : option AuthData) (date : Z),
      step (TimerFires h auth date) st = Some st' ->
      primaryResetTime st' = primaryResetTime st /\
      secondaryResetTime st' = secondaryResetTime st /\
      lastLimits st' = lastLimits st /\
      timers st' = List.filter (fun x => negb (has_handle h x)) (timers st)).
Proof.
  intros Hno. apply noSnapshot_pingCodex in Hno. repeat apply conj.
  - intros st st' i r. simpl. rewrite Hno.
    destruct (take_nth i (inflight st)) as [[p rest]|]; [|discriminate].
    intros H; inversion H; subst; clear H.
    destruct p as [|[|]|type]; simpl; auto 10.
  - intros st [a|]; destruct st; reflexivity.
  - intros st st' h auth date. simpl.
    destruct (find_timer h st) as [x|]; [|discriminate].
    intros H; inversion H; subst; clear H.
    destruct auth, (window x); simpl; auto.
Qed.

(** A response without any of the four headers. *)
Lemma no_snapshot_no_change_witness :
  noSnapshot (Response headers_empty) /\
  forall (st st' : State) (i : nat) (r : Readings),
    step (PingSettles i (Response headers_empty) r) st = Some st' ->
    timers st' = timers st.
Proof.
  assert (Hno : noSnapshot (Response headers_empty)).
  { right. exists headers_empty. split; [left; reflexivity | vm_compute; reflexivity]. }
  split; [exact Hno|].
  intros st st' i r Hstep.
  apply (proj1 (no_snapshot_no_change (Response headers_empty) Hno) st st' i r Hstep).
Defined.

(** ** Arming after the reset instant *)

(** A difference that is not above zero clamps to a delay that is not above
    zero. *)
Lemma Math_max_zero_le (d : Js.number) :
  Js.le d Js.zero = true -> Js.gt (Js.Math_max Js.zero d) Js.zero = false.
Proof.
  destruct d as [[|]|[|]| |[|] m e]; vm_compute; congruence.
Qed.

(** C7, as stated, fails: the check settles with a primary reset one second
    in the past while [loadAuth] finds no credentials any more; the reset
    time is stored, the delay clamps to 0, and [pingCount] and
    [lastPingTime] are as before when the task returns. *)
Lemma elapsed_without_credentials :
  primaryResetTime
    (checkLimits_resume (readingsLoggedOut startup)
       (pingCodex (Response headers_elapsed)) initial)
  = Some (Js.of_Z (startup - 1000)) /\
  Js.le (Js.sub (Js.of_Z (startup - 1000)) (Js.of_Z startup)) Js.zero = true /\
  pingCount
    (checkLimits_resume (readingsLoggedOut startup)
       (pingCodex (Response headers_elapsed)) initial) = pingCount initial /\
  lastPingTime
    (checkLimits_resume (readingsLoggedOut startup)
       (pingCodex (Response headers_elapsed)) initial) = None.
Proof. repeat apply conj; vm_compute; reflexivity. Qed.

(** C7, amended: when [schedulePing] is entered for an enabled window with a
    reset time [t] such that [t - now <= 0], and credentials are found, it
    sets no timer: before it returns, [pingCount] is one more,
    [lastPingTime] is the current date and the ping is under way.  The same
    holds by the time the block of a window returns when the block arms
    such a candidate. *)
Theorem schedulePing_elapsed (r : ArmReadings) (t : Js.number)
    (type : WindowType) (st : State) (auth : AuthData) :
  Js.truthy t = true ->
  enabledOf type st = true ->
  Js.le (Js.sub t (Js.of_Z (arm_now r))) Js.zero = true ->
  arm_auth r = Some auth ->
  schedulePing r (Some t) type st
  = Normal (startPing (arm_date r) (ImmediatePing type) st) /\
  pingCount (stateOf (schedulePing r (Some t) type st)) = pingCount st + 1 /\
  lastPingTime (stateOf (schedulePing r (Some t) type st)) = Some (arm_date r) /\
  timers (stateOf (schedulePing r (Some t) type st)) = timers st /\
  inflight (stateOf (schedulePing r (Some t) type st))
  = inflight st ++ [ImmediatePing type] /\
  (forall (rr : Readings) (limits : RateLimits),
      armOf type rr = r ->
      newReset (now2 rr) (windowOf type limits) = Some t ->
      Js.strict_neq (Some t) (resetTimeOf type st) = true ->
      let st' := stateOf (reconcileWindow type rr limits st) in
      pingCount st' = pingCount st + 1 /\
      lastPingTime st' = Some (arm_date r) /\
      timers st' = timers (clearStored type st)).
Proof.
  intros Ht Hen Hle Hauth.
  assert (E : forall s, enabledOf type s = true ->
                        schedulePing r (Some t) type s
                        = Normal (startPing (arm_date r) (ImmediatePing type) s)).
  { intros s Hs. unfold schedulePing. rewrite Ht, Hs. simpl.
    rewrite (Math_max_zero_le _ Hle), Hauth. reflexivity. }
  rewrite (E st Hen). cbn [stateOf]. do 5 (split; [reflexivity|]).
  intros rr limits Hr Hc Hd. subst r.
  unfold reconcileWindow. cbv zeta. rewrite Hc, Hd.
  assert (Hen1 : enabledOf type (set_resetTime type (Some t) (clearStored type st)) = true).
  { destruct (clearStored_cases type st) as [E'|[h E']]; rewrite E';
      destruct type; simpl; exact Hen. }
  rewrite Hen1, (E _ Hen1). simpl.
  destruct (clearStored_cases type st) as [E'|[h E']]; rewrite E'; simpl; auto.
Qed.

(** A reset one second in the past, armed in the initial state. *)
Lemma schedulePing_elapsed_witness :
  Js.le (Js.sub (Js.of_Z (startup - 1000)) (Js.of_Z startup)) Js.zero = true /\
  pingCount (stateOf (schedulePing (armAt startup (Some credentials))
                        (Some (Js.of_Z (startup - 1000))) Primary initial))
  = pingCount initial + 1.
Proof.
  assert (H : Js.le (Js.sub (Js.of_Z (startup - 1000))
                       (Js.of_Z (arm_now (armAt startup (Some credentials)))))
                Js.zero = true) by (vm_compute; reflexivity).
  split; [exact H|].
  apply (schedulePing_elapsed (armAt startup (Some credentials))
           (Js.of_Z (startup - 1000)) Primary initial credentials
           eq_refl eq_refl H eq_refl).
Defined.

(** ** The ping counter *)

Lemma step_pingCount (e : Event) (st st' : State) :
  step e st = Some st' -> pingCount st <= pingCount st'.
Proof.
  destruct e as [auth|h auth date|i t r|command enabled r]; simpl.
  - intros H; inversion H; subst. destruct auth; simpl; lia.
  - destruct (find_timer h st) as [x|]; [|discriminate].
    intros H; inversion H; subst. destruct auth, (window x); simpl; lia.
  - destruct (take_nth i (inflight st)) as [[p rest]|]; [|discriminate].
    intros H; inversion H; subst; clear H.
    assert (Ha : forall l, pingCount st
                           <= pingCount (stateOf (applyLimits r l (set_inflight rest st))))
      by (intros l; apply (applyLimits_pingCount r l (set_inflight rest st))).
    destruct p as [|type|type];
      unfold checkLimits_resume, timerCallback_resume, immediate_resume;
      destruct (pingCodex t) as [l|]; simpl; try lia; try apply Ha.
    specialize (Ha l). destruct (applyLimits r l (set_inflight rest st)); simpl in *;
      destruct type; simpl; lia.
  - intros H; inversion H; subst; clear H. unfold onDidReceiveMessage, toggle.
    assert (Hs : forall w rt, pingCount st
               <= pingCount (stateOf (schedulePing r rt w (set_enabled w enabled st))))
      by (intros w rt; apply (schedulePing_pingCount r rt w (set_enabled w enabled st))).
    assert (Hc : forall w, pingCount (set_timer w None (clearStored w (set_enabled w enabled st)))
                           = pingCount st).
    { intros w. destruct (clearStored_cases w (set_enabled w enabled st)) as [E|[h E]];
        rewrite E; destruct w; reflexivity. }
    repeat match goal with
           | |- context [if ?b then _ else _] => destruct b
           end; rewrite ?Hc; try apply Hs; simpl; lia.
Qed.

Lemma run_pingCount (es : list Event) (st st' : State) :
  run es st = Some st' -> pingCount st <= pingCount st'.
Proof.
  revert st. induction es as [|e es IH]; intros st; simpl.
  - intros H; inversion H; lia.
  - destruct (step e st) as [s|] eqn:E; [|discriminate].
    intros H. apply step_pingCount in E. apply IH in H. lia.
Qed.

Lemma startsImmediate_same (st st' : State) :
  inflight st' = inflight st -> pingCount st' = pingCount st ->
  startsImmediate st st'.
Proof.
  intros Hi Hc. exists []. rewrite app_nil_r. simpl. repeat split; auto; lia.
Qed.

Lemma startsImmediate_trans (st1 st2 st3 : State) :
  startsImmediate st1 st2 -> startsImmediate st2 st3 -> startsImmediate st1 st3.
Proof.
  intros (n1 & Hi1 & Hc1 & Hf1) (n2 & Hi2 & Hc2 & Hf2). exists (n1 ++ n2).
  rewrite Hi2, Hi1, Hc2, Hc1, <- app_assoc, length_app, Nat2Z.inj_add.
  repeat split; [lia|]. apply Forall_app; auto.
Qed.

Lemma schedulePing_starts (r : ArmReadings) (rt : option Js.number)
    (type : WindowType) (st : State) :
  startsImmediate st (stateOf (schedulePing r rt type st)).
Proof.
  destruct (schedulePing_cases r rt type st) as [H|[[d H]|H]]; rewrite H.
  - apply startsImmediate_same; reflexivity.
  - apply startsImmediate_same; destruct type; reflexivity.
  - exists [ImmediatePing type]. simpl. repeat split; auto.
Qed.

Lemma clearStored_starts (w : WindowType) (st : State) :
  startsImmediate st (clearStored w st).
Proof.
  destruct (clearStored_cases w st) as [E|[h E]]; rewrite E;
    apply startsImmediate_same; reflexivity.
Qed.

Lemma reconcileWindow_starts (w : WindowType) (r : Readings)
    (limits : RateLimits) (st : State) :
  startsImmediate st (stateOf (reconcileWindow w r limits st)).
Proof.
  assert (H1 : startsImmediate st
                 (set_resetTime w (newReset (now2 r) (windowOf w limits))
                    (clearStored w st))).
  { apply (startsImmediate_trans st (clearStored w st)); [apply clearStored_starts|].
    apply startsImmediate_same; destruct w; reflexivity. }
  destruct (reconcileWindow_cases w r limits st) as [H|[H|H]]; rewrite H.
  - apply startsImmediate_same; reflexivity.
  - exact H1.
  - eapply startsImmediate_trans; [exact H1|apply schedulePing_starts].
Qed.

Lemma applyLimits_starts (r : Readings) (limits : RateLimits) (st : State) :
  startsImmediate st (stateOf (applyLimits r limits st)).
Proof.
  unfold applyLimits.
  assert (H1 : startsImmediate st
                 (stateOf (reconcileWindow Primary r limits
                             (set_lastLimits (Some limits) st)))).
  { apply (startsImmediate_trans st (set_lastLimits (Some limits) st));
      [apply startsImmediate_same; reflexivity | apply reconcileWindow_starts]. }
  destruct (reconcileWindow Primary r limits (set_lastLimits (Some limits) st)) as [s1|s1];
    simpl in *; [|exact H1].
  eapply startsImmediate_trans; [exact H1|apply reconcileWindow_starts].
Qed.

Lemma toggle_starts (w : WindowType) (b : bool) (r : ArmReadings) (st : State) :
  startsImmediate st (toggle w b r st).
Proof.
  assert (H1 : startsImmediate st (set_enabled w b st))
    by (apply startsImmediate_same; destruct w; reflexivity).
  unfold toggle. cbv zeta. destruct (negb _ && _).
  - eapply startsImmediate_trans; [exact H1|].
    eapply startsImmediate_trans; [apply clearStored_starts|].
    apply startsImmediate_same; destruct w; reflexivity.
  - destruct (_ && _); [|exact H1].
    eapply startsImmediate_trans; [exact H1|apply schedulePing_starts].
Qed.

(** The continuation of a ping whose own entry has been taken off the
    pings in flight. *)
Lemma resume_starts (p : Ping) (r : Readings) (limits : option RateLimits)
    (st : State) :
  startsImmediate st
    match p with
    | PollPing => checkLimits_resume r limits st
    | TimerPing type => timerCallback_resume type r limits st
    | ImmediatePing _ => immediate_resume r limits st
    end.
Proof.
  unfold checkLimits_resume, timerCallback_resume, immediate_resume.
  destruct limits as [l|].
  - pose proof (applyLimits_starts r l st) as H.
    destruct p as [|type|type]; try exact H.
    destruct (applyLimits r l st) as [s|s]; simpl in *; [|exact H].
    eapply startsImmediate_trans; [exact H|].
    apply startsImmediate_same; destruct type; reflexivity.
  - destruct p as [|type|type];
      apply startsImmediate_same; try destruct type; reflexivity.
Qed.

Lemma firings_immediate (new : list Ping) :
  Forall (fun q => immediate q = true) new ->
  firings new = Z.of_nat (length new).
Proof.
  unfold firings. induction 1 as [|q new Hq _ IH]; [reflexivity|].
  destruct q; try discriminate. simpl. f_equal. f_equal. lia.
Qed.

(** What a task adds to [pingCount] is the number of firings it starts:
    the pings it leaves in flight beyond those that were pending. *)
Lemma step_counts_firings (e : Event) (st st' : State) :
  step e st = Some st' ->
  exists new,
    inflight st' = pending e st ++ new /\
    pingCount st' = pingCount st + firings new.
Proof.
  destruct e as [auth|h auth date|i t r|command enabled r]; simpl.
  - intros H; inversion H; subst; clear H. destruct auth; simpl.
    + exists [PollPing]. split; [reflexivity|]. unfold firings. simpl. lia.
    + exists []. rewrite app_nil_r. split; [reflexivity|]. unfold firings. simpl. lia.
  - destruct (find_timer h st) as [x|]; [|discriminate].
    intros H; inversion H; subst; clear H. destruct auth; simpl.
    + exists [TimerPing (window x)]. split; reflexivity.
    + exists []. rewrite app_nil_r. unfold firings. simpl.
      split; [destruct (window x); reflexivity | destruct (window x); simpl; lia].
  - destruct (take_nth i (inflight st)) as [[p rest]|]; [|discriminate].
    intros H; inversion H; subst; clear H.
    destruct (resume_starts p r (pingCodex t) (set_inflight rest st))
      as (new & Hi & Hc & Hf).
    exists new. rewrite (firings_immediate new Hf). split; [exact Hi|exact Hc].
  - intros H; inversion H; subst; clear H.
    assert (Hs : startsImmediate st (onDidReceiveMessage command enabled r st)).
    { unfold onDidReceiveMessage.
      destruct (String.eqb command "togglePrimary"); [apply toggle_starts|].
      destruct (String.eqb command "toggleSecondary"); [apply toggle_starts|].
      apply startsImmediate_same; reflexivity. }
    destruct Hs as (new & Hi & Hc & Hf).
    exists new. rewrite (firings_immediate new Hf). split; [exact Hi|exact Hc].
Qed.

(** C8: [pingCount] is an integer that is never negative and never
    decreases from one task to the next.  Every task adds to it exactly
    the number of firings it starts, and nothing else does: the callback
    of a live timer that finds credentials runs and adds one, an arming
    after the reset instant with credentials adds one, both in the task
    that starts the ping, which is still in flight when that task ends.
    The task in which a ping settles does not count that ping again: it
    adds one for each ping that it starts itself by arming a window whose
    reset instant has passed, and nothing at all when the ping brought no
    snapshot. *)
Theorem pingCount_counts_attempts :
  (forall st : State, reachable st -> 0 <= pingCount st) /\
  (forall (e : Event) (st st' : State),
      step e st = Some st' ->
      pingCount st <= pingCount st' /\
      exists new,
        inflight st' = pending e st ++ new /\
        pingCount st' = pingCount st + firings new) /\
  (forall (h : nat) (auth : AuthData) (date : Z) (st : State) (x : Timer),
      find_timer h st = Some x ->
      exists st',
        step (TimerFires h (Some auth) date) st = Some st' /\
        pingCount st' = pingCount st + 1 /\
        inflight st' = inflight st ++ [TimerPing (window x)]) /\
  (forall (r : ArmReadings) (t : Js.number) (type : WindowType) (st : State)
          (auth : AuthData),
      Js.truthy t = true ->
      enabledOf type st = true ->
      Js.gt (Js.Math_max Js.zero (Js.sub t (Js.of_Z (arm_now r)))) Js.zero = false ->
      arm_auth r = Some auth ->
      pingCount (stateOf (schedulePing r (Some t) type st)) = pingCount st + 1 /\
      inflight (stateOf (schedulePing r (Some t) type st))
      = inflight st ++ [ImmediatePing type]) /\
  (forall (i : nat) (t : Transport) (r : Readings) (st : State) (p : Ping)
          (rest : list Ping),
      take_nth i (inflight st) = Some (p, rest) ->
      exists st' new,
        step (PingSettles i t r) st = Some st' /\
        inflight st' = rest ++ new /\
        pingCount st' = pingCount st + Z.of_nat (length new) /\
        Forall (fun q => immediate q = true) new /\
        (pingCodex t = None -> new = [])).
Proof.
  repeat apply conj.
  - intros st [es Hes]. apply run_pingCount in Hes. simpl in Hes. exact Hes.
  - intros e st st' H. split; [apply (step_pingCount e), H|].
    apply step_counts_firings, H.
  - intros h auth date st x Hx. simpl. rewrite Hx.
    eexists. split; [reflexivity|]. split; reflexivity.
  - intros r t type st auth Ht Hen Hd Hauth.
    unfold schedulePing. rewrite Ht, Hen. simpl. rewrite Hd, Hauth. simpl. auto.
  - intros i t r st p rest Hp. simpl. rewrite Hp.
    destruct (pingCodex t) as [l|] eqn:Hl.
    + destruct (resume_starts p r (Some l) (set_inflight rest st))
        as (new & Hi & Hc & Hf).
      eexists. exists new. split; [reflexivity|].
      split; [exact Hi|]. split; [exact Hc|]. split; [exact Hf|discriminate].
    + eexists. exists []. split; [reflexivity|]. rewrite app_nil_r.
      split; [|split; [|split; [constructor|reflexivity]]];
        destruct p as [|type|type]; try destruct type; simpl; try reflexivity; lia.
Qed.

(** The counter at the moments of [secondary_fired]: timer 3 is live after
    [primary_fired]; it fires with credentials, and its ping then fails. *)
Lemma timer_three_live :
  find_timer 3 (after primary_fired)
  = Some {| handle := 3; window := Secondary; delay := Js.of_Z 100000 |}.
Proof. vm_compute; reflexivity. Qed.

Lemma secondary_ping_in_flight :
  take_nth 0 (inflight (after secondary_firing)) = Some (TimerPing Secondary, []).
Proof. vm_compute; reflexivity. Qed.

Lemma pingCount_counts_attempts_witness :
  (exists st',
     step (TimerFires 3 (Some credentials) (startup + 400005)) (after primary_fired)
     = Some st' /\
     pingCount st' = pingCount (after primary_fired) + 1 /\
     inflight st' = inflight (after primary_fired) ++ [TimerPing Secondary]) /\
  (exists st' new,
     step (PingSettles 0 ErrorNoResponse (readingsAt (startup + 400010)))
          (after secondary_firing) = Some st' /\
     inflight st' = [] ++ new /\
     pingCount st' = pingCount (after secondary_firing) + Z.of_nat (length new) /\
     Forall (fun q => immediate q = true) new /\
     (pingCodex ErrorNoResponse = None -> new = [])).
Proof.
  exact (conj
           (proj1 (proj2 (proj2 pingCount_counts_attempts))
              3%nat credentials (startup + 400005) (after primary_fired) _
              timer_three_live)
           (proj2 (proj2 (proj2 (proj2 pingCount_counts_attempts)))
              0%nat ErrorNoResponse (readingsAt (startup + 400010))
              (after secondary_firing) _ _ secondary_ping_in_flight)).
Defined.

(** ** The last snapshot *)

(** C10: the task that receives a snapshot from a poll or a firing ends
    with [lastLimits] equal to that snapshot, whatever [lastLimits] was
    before: a window that the snapshot lacks is not in the state afterwards,
    and nothing of the previous snapshot takes part in the result. *)
Theorem snapshot_replaces_lastLimits (t : Transport) (snapshot : RateLimits)
    (i : nat) (r : Readings) (st st' : State) :
  pingCodex t = Some snapshot ->
  step (PingSettles i t r) st = Some st' ->
  lastLimits st' = Some snapshot /\
  (forall w : WindowType,
      windowOf w snapshot = None ->
      match lastLimits st' with
      | Some l => windowOf w l
      | None => None
      end = None) /\
  (forall old : option RateLimits,
      step (PingSettles i t r) (set_lastLimits old st) = Some st').
Proof.
  intros Hsnap Hstep.
  assert (Hl : lastLimits st' = Some snapshot).
  { simpl in Hstep. rewrite Hsnap in Hstep.
    destruct (take_nth i (inflight st)) as [[p rest]|]; [|discriminate].
    inversion Hstep; subst; clear Hstep.
    pose proof (applyLimits_lastLimits r snapshot (set_inflight rest st)) as Ha.
    destruct p as [|type|type];
      unfold checkLimits_resume, timerCallback_resume, immediate_resume; auto.
    destruct (applyLimits r snapshot (set_inflight rest st)); simpl in *;
      destruct type; simpl; exact Ha. }
  split; [exact Hl|]. split.
  - intros w Hw. rewrite Hl. exact Hw.
  - intros old. rewrite <- Hstep. simpl. rewrite Hsnap.
    destruct (take_nth i (inflight st)) as [[p rest]|]; [|reflexivity].
    destruct p; reflexivity.
Qed.

(** The ping of the start-up check settles with [headers_both]. *)
Lemma snapshot_replaces_lastLimits_witness :
  pingCodex (Response headers_both) = Some snapshot_both /\
  step (PingSettles 0 (Response headers_both) (readingsAt startup))
       (after [CheckLimits (Some credentials)]) = Some (after first_poll) /\
  lastLimits (after first_poll) = Some snapshot_both.
Proof.
  assert (HS : pingCodex (Response headers_both) = Some snapshot_both)
    by (vm_compute; reflexivity).
  assert (Hstep : step (PingSettles 0 (Response headers_both) (readingsAt startup))
                       (after [CheckLimits (Some credentials)])
                  = Some (after first_poll)) by (vm_compute; reflexivity).
  split; [exact HS|]. split; [exact Hstep|].
  apply (snapshot_replaces_lastLimits _ _ _ _ _ _ HS Hstep).
Defined.

(** ** Timers and their handles *)

(** Every conjunct of a statement about a run of events is settled by
    evaluating the run. *)
Ltac evaluate_run := repeat apply conj; vm_compute; reflexivity.

(** C2 fails on the code.  After the start-up check, the primary timer
    fires and its ping re-arms the primary window with timer 2; the callback
    then resets [primaryTimer] (line 278), so that the handle is [null]
    while timer 2 is live.  When the secondary timer fires next, its ping
    brings a new primary reset time, nothing is cancelled, timer 4 is set:
    the primary window has the two live timers 2 and 4. *)
Theorem primary_timer_duplicated :
  happens primary_fired = true /\
  primaryTimer (after primary_fired) = None /\
  liveHandles Primary (after primary_fired) = [2%nat] /\
  happens secondary_fired = true /\
  primaryTimer (after secondary_fired) = Some 4%nat /\
  liveHandles Primary (after secondary_fired) = [2%nat; 4%nat].
Proof.
  evaluate_run.
Qed.

(** C3 fails on the code in the same run: when the ping of the secondary
    timer settles, the candidate of the primary window differs from its
    reset time, and the live timer 2 of the primary window is still live
    after the new limits have been applied. *)
Theorem reconcile_keeps_live_timer :
  happens secondary_firing = true /\
  liveHandles Primary (after secondary_firing) = [2%nat] /\
  Js.strict_neq
    (newReset (startup + 400010) (extracted Primary headers_later))
    (resetTimeOf Primary (after secondary_firing)) = true /\
  option_map (liveHandles Primary)
    (step (PingSettles 0 (Response headers_later) (readingsAt (startup + 400010)))
          (after secondary_firing))
  = Some [2%nat; 4%nat].
Proof.
  evaluate_run.
Qed.

(** C6 fails on the code in the same state: after the primary timer fired
    and re-armed, switching the primary window off cancels nothing, timer 2
    stays live, and when it comes due the extension pings although the
    window is disabled. *)
Theorem disable_keeps_live_timer :
  happens primary_disabled = true /\
  primaryEnabled (after primary_disabled) = false /\
  liveHandles Primary (after primary_disabled) = [2%nat] /\
  happens disabled_then_due = true /\
  primaryEnabled (after disabled_then_due) = false /\
  pingCount (after disabled_then_due) = 3 /\
  inflight (after disabled_then_due) = [TimerPing Primary].
Proof.
  evaluate_run.
Qed.

(** ** What the blocks do with the handle they hold *)

Lemma find_removed (h : nat) (l : list Timer) :
  List.find (has_handle h) (List.filter (fun t => negb (has_handle h t)) l) = None.
Proof.
  induction l as [|x l IH]; simpl; [reflexivity|].
  destruct (has_handle h x) eqn:E; simpl; [exact IH|].
  rewrite E. exact IH.
Qed.

Lemma clearStored_not_live (w : WindowType) (st : State) (h : nat) :
  timerOf w st = Some h -> find_timer h (clearStored w st) = None.
Proof.
  intros H. unfold clearStored. rewrite H.
  unfold find_timer, clearTimeout, removeTimer. simpl. apply find_removed.
Qed.

Lemma eq_same (x : Js.number) : Js.isNaN x = false -> Js.eq x x = true.
Proof.
  destruct x as [s|s| |s m e]; simpl; try discriminate; intros _.
  - reflexivity.
  - destruct s; reflexivity.
  - unfold Js.eq, SFeqb, SFcompare.
    destruct s; rewrite Z.compare_refl, Pos.compare_cont_refl; reflexivity.
Qed.

(** A candidate equal to the reset time of the window changes nothing. *)
Lemma reconcileWindow_equal (w : WindowType) (r : Readings)
    (limits : RateLimits) (st : State) :
  Js.strict_neq (newReset (now2 r) (windowOf w limits)) (resetTimeOf w st) = false ->
  reconcileWindow w r limits st = Normal st.
Proof. intros H. unfold reconcileWindow. cbv zeta. rewrite H. reflexivity. Qed.

(** A different candidate is stored, the timer whose handle the window holds
    is cancelled, and the window is armed with the candidate when it is
    enabled. *)
Lemma reconcileWindow_differs (w : WindowType) (r : Readings)
    (limits : RateLimits) (st : State) :
  Js.strict_neq (newReset (now2 r) (windowOf w limits)) (resetTimeOf w st) = true ->
  let candidate := newReset (now2 r) (windowOf w limits) in
  let st1 := set_resetTime w candidate (clearStored w st) in
  reconcileWindow w r limits st
  = (if enabledOf w st then schedulePing (armOf w r) candidate w st1 else Normal st1) /\
  resetTimeOf w st1 = candidate /\
  (forall h, timerOf w st = Some h -> find_timer h st1 = None).
Proof.
  intros H. cbv zeta. unfold reconcileWindow. cbv zeta. rewrite H.
  assert (He : enabledOf w (set_resetTime w (newReset (now2 r) (windowOf w limits))
                              (clearStored w st)) = enabledOf w st).
  { destruct (clearStored_cases w st) as [E|[h E]]; rewrite E; destruct w; reflexivity. }
  rewrite He. split; [reflexivity|]. split.
  - destruct (clearStored_cases w st) as [E|[h E]]; rewrite E; destruct w; reflexivity.
  - intros h Hh. apply (clearStored_not_live w st h) in Hh.
    unfold find_timer in *. destruct w; exact Hh.
Qed.

(** In a snapshot that [extractLimits] returns, a reset that is present is
    never zero: the candidate is [now + resets_in_seconds * 1000]. *)
Lemma newReset_extracted (w : WindowType) (headers : gmap string string)
    (rw : RateWindow) (now : Z) :
  extracted w headers = Some rw ->
  newReset now (Some rw)
  = match resets_in_seconds rw with
    | Some s => Some (Js.add (Js.of_Z now) (Js.mul s (Js.of_Z 1000)))
    | None => None
    end.
Proof.
  rewrite extracted_window. unfold extractWindow.
  destruct (parseHeader headers (usedHeader w)) as [p|]; [|discriminate].
  intros H; inversion H; subst; clear H. simpl.
  destruct (or_undefined (parseHeader headers (resetHeader w))) as [s|] eqn:E;
    [|reflexivity].
  apply or_undefined_Some in E. destruct E as [_ Ht]. rewrite Ht. reflexivity.
Qed.

(** Arming before the reset instant sets one timer, with the delay
    [max(0, resetTime - now)], and stores its handle. *)
Lemma schedulePing_sets_timer (r : ArmReadings) (t : Js.number)
    (type : WindowType) (st : State) :
  Js.truthy t = true ->
  enabledOf type st = true ->
  Js.gt (Js.Math_max Js.zero (Js.sub t (Js.of_Z (arm_now r)))) Js.zero = true ->
  stateOf (schedulePing r (Some t) type st)
  = set_timer type (Some (nextHandle st))
      (snd (setTimeout type (Js.Math_max Js.zero (Js.sub t (Js.of_Z (arm_now r)))) st)).
Proof.
  intros Ht Hen Hd. unfold schedulePing. rewrite Ht, Hen. simpl. rewrite Hd.
  destruct (validDate t); reflexivity.
Qed.

(** Switching a window off keeps its reset time, forgets its handle and
    cancels the timer the handle referred to. *)
Lemma toggle_off (w : WindowType) (r : ArmReadings) (st : State) :
  resetTimeOf w (toggle w false r st) = resetTimeOf w st /\
  enabledOf w (toggle w false r st) = false /\
  timerOf w (toggle w false r st) = None /\
  (forall h, timerOf w st = Some h -> find_timer h (toggle w false r st) = None).
Proof.
  unfold toggle. cbv zeta.
  assert (He : enabledOf w (set_enabled w false st) = false) by (destruct w; reflexivity).
  assert (Ht : timerOf w (set_enabled w false st) = timerOf w st) by (destruct w; reflexivity).
  unfold clearStored. rewrite He, Ht.
  destruct (timerOf w st) as [h|] eqn:Hh; cbn [negb andb truthy_handle].
  - repeat split; try (destruct w; reflexivity).
    intros h' Hh'. inversion Hh'; subst.
    unfold find_timer, clearTimeout, removeTimer.
    destruct w; simpl; apply find_removed.
  - split; [destruct w; reflexivity|]. split; [exact He|].
    split; [destruct w; exact Hh|]. intros h' Hh'. discriminate.
Qed.

(** Switching it on again arms it with the reset time it kept. *)
Lemma toggle_off_on (w : WindowType) (r1 r2 : ArmReadings) (st : State)
    (t : Js.number) :
  resetTimeOf w st = Some t ->
  Js.truthy t = true ->
  toggle w true r2 (toggle w false r1 st)
  = stateOf (schedulePing r2 (Some t) w (set_enabled w true (toggle w false r1 st))) /\
  resetTimeOf w (toggle w true r2 (toggle w false r1 st)) = Some t.
Proof.
  intros Hr Ht.
  destruct (toggle_off w r1 st) as (Hr' & _ & _ & _). rewrite Hr in Hr'.
  set (off := toggle w false r1 st) in *.
  assert (E : toggle w true r2 off
              = stateOf (schedulePing r2 (Some t) w (set_enabled w true off))).
  { unfold toggle. cbv zeta.
    assert (He : enabledOf w (set_enabled w true off) = true) by (destruct w; reflexivity).
    assert (Hx : resetTimeOf w (set_enabled w true off) = Some t)
      by (destruct w; exact Hr').
    rewrite He, Hx. simpl. rewrite Ht. reflexivity. }
  split; [exact E|].
  rewrite E, schedulePing_resetTime. destruct w; exact Hr'.
Qed.

(** The second slip behind C3: a reset time that is no date (here the
    header value [Infinity]) makes the log line of [schedulePing] raise
    after the primary timer is set, and the block of the secondary window
    is not run. *)
Lemma secondary_skipped_after_range_error :
  secondaryResetTime
    (checkLimits_resume (readingsAt startup)
       (pingCodex (Response (headersOf (Some "10"%string) (Some "Infinity"%string)
                                       (Some "5"%string) (Some "400"%string))))
       initial) = None.
Proof. vm_compute; reflexivity. Qed.

(** ** Properties kept by every task *)

Section Preserved.

Variable P : State -> Prop.

Hypothesis P_inflight : forall ps st, P st -> P (set_inflight ps st).
Hypothesis P_lastLimits :
  forall headers l st,
    extractLimits headers = Some l -> P st -> P (set_lastLimits (Some l) st).
Hypothesis P_resetTime : forall w t st, P st -> P (set_resetTime w t st).
Hypothesis P_enabled : forall w b st, P st -> P (set_enabled w b st).
Hypothesis P_forget : forall w st, P st -> P (set_timer w None st).
Hypothesis P_remove : forall h st, P st -> P (removeTimer h st).
Hypothesis P_arm :
  forall type d st,
    Js.gt d Js.zero = true -> P st ->
    P (set_timer type (Some (nextHandle st)) (snd (setTimeout type d st))).
Hypothesis P_ping : forall date p st, P st -> P (startPing date p st).

Lemma preserved_schedulePing (r : ArmReadings) (rt : option Js.number)
    (type : WindowType) (st : State) :
  P st -> P (stateOf (schedulePing r rt type st)).
Proof.
  intros H. unfold schedulePing. destruct rt as [t|]; simpl; auto.
  destruct (Js.truthy t); simpl; auto.
  destruct (enabledOf type st); simpl; auto.
  destruct (Js.gt _ _) eqn:Hd.
  - destruct (validDate t); simpl; apply (P_arm type _ st Hd H).
  - destruct (arm_auth r); simpl; auto.
Qed.

Lemma preserved_clearStored (w : WindowType) (st : State) :
  P st -> P (clearStored w st).
Proof.
  intros H. unfold clearStored, clearTimeout. destruct (timerOf w st); auto.
Qed.

Lemma preserved_reconcileWindow (w : WindowType) (r : Readings)
    (limits : RateLimits) (st : State) :
  P st -> P (stateOf (reconcileWindow w r limits st)).
Proof.
  intros H. unfold reconcileWindow. cbv zeta.
  destruct (Js.strict_neq _ _); simpl; auto.
  destruct (enabledOf w _); simpl.
  - apply preserved_schedulePing. auto using preserved_clearStored.
  - auto using preserved_clearStored.
Qed.

Lemma preserved_applyLimits (r : Readings) (headers : gmap string string)
    (limits : RateLimits) (st : State) :
  extractLimits headers = Some limits ->
  P st -> P (stateOf (applyLimits r limits st)).
Proof.
  intros He H. unfold applyLimits.
  pose proof (preserved_reconcileWindow Primary r limits _ (P_lastLimits _ _ _ He H)) as H1.
  destruct (reconcileWindow Primary r limits (set_lastLimits (Some limits) st)) as [s|s];
    simpl in *; [|exact H1].
  apply preserved_reconcileWindow. exact H1.
Qed.

Lemma pingCodex_extracted (t : Transport) (limits : RateLimits) :
  pingCodex t = Some limits -> exists headers, extractLimits headers = Some limits.
Proof. destruct t; simpl; intros H; [eauto | eauto | discriminate]. Qed.

Lemma preserved_toggle (w : WindowType) (b : bool) (r : ArmReadings) (st : State) :
  P st -> P (toggle w b r st).
Proof.
  intros H. unfold toggle. cbv zeta.
  destruct (negb _ && _).
  - apply P_forget, preserved_clearStored, P_enabled, H.
  - destruct (_ && _); [apply preserved_schedulePing|]; apply P_enabled, H.
Qed.

Lemma preserved_step (e : Event) (st st' : State) :
  P st -> step e st = Some st' -> P st'.
Proof.
  intros H. destruct e as [auth|h auth date|i t r|command enabled r]; simpl.
  - intros E; inversion E; subst. destruct auth; simpl; auto.
  - destruct (find_timer h st) as [x|]; [|discriminate].
    intros E; inversion E; subst. destruct auth; simpl; auto.
  - destruct (take_nth i (inflight st)) as [[p rest]|]; [|discriminate].
    intros E; inversion E; subst; clear E.
    pose proof (P_inflight rest st H) as H1.
    unfold checkLimits_resume, timerCallback_resume, immediate_resume.
    destruct (pingCodex t) as [l|] eqn:Hl.
    + destruct (pingCodex_extracted t l Hl) as [headers He].
      pose proof (preserved_applyLimits r headers l _ He H1) as H2.
      destruct p as [|type|type]; auto.
      destruct (applyLimits r l (set_inflight rest st)); simpl in *; auto.
    + destruct p as [|type|type]; auto.
  - intros E; inversion E; subst; clear E. unfold onDidReceiveMessage.
    destruct (String.eqb command "togglePrimary"); [apply preserved_toggle, H|].
    destruct (String.eqb command "toggleSecondary"); [apply preserved_toggle, H|exact H].
Qed.

Lemma preserved_run (es : list Event) (st st' : State) :
  P st -> run es st = Some st' -> P st'.
Proof.
  revert st. induction es as [|e es IH]; intros st H; simpl.
  - intros E; inversion E; subst; exact H.
  - destruct (step e st) as [s|] eqn:E; [|discriminate].
    apply IH. eapply preserved_step; eauto.
Qed.

Lemma preserved_reachable (st : State) : P initial -> reachable st -> P st.
Proof. intros H [es Hes]. eapply preserved_run; eauto. Qed.

End Preserved.

(** ** Handles, delays, the ping counter and the last snapshot in the
    states the extension reaches *)

Lemma ownHandles_same (st st' : State) :
  timers st' = timers st -> nextHandle st' = nextHandle st ->
  primaryTimer st' = primaryTimer st -> secondaryTimer st' = secondaryTimer st ->
  ownHandles st -> ownHandles st'.
Proof.
  intros Ht Hn Hp Hs (H1 & H2 & H3).
  assert (Hw : forall w, timerOf w st' = timerOf w st) by (intros [|]; assumption).
  unfold ownHandles. rewrite Ht, Hn. repeat apply conj.
  - exact H1.
  - intros w h. rewrite Hw. apply H2.
  - intros w t. rewrite Hw. apply H3.
Qed.

Lemma ownHandles_forget (w : WindowType) (st : State) :
  ownHandles st -> ownHandles (set_timer w None st).
Proof.
  intros (H1 & H2 & H3). repeat apply conj.
  - exact H1.
  - intros w' h. destruct w, w'; simpl; try discriminate;
      [apply (H2 Secondary) | apply (H2 Primary)].
  - intros w' t Hin. destruct w, w'; simpl; try discriminate;
      [apply (H3 Secondary) | apply (H3 Primary)]; exact Hin.
Qed.

Lemma ownHandles_remove (h : nat) (st : State) :
  ownHandles st -> ownHandles (removeTimer h st).
Proof.
  intros (H1 & H2 & H3).
  assert (Hw : forall w, timerOf w (removeTimer h st) = timerOf w st)
    by (intros [|]; reflexivity).
  repeat apply conj.
  - intros t Hin. apply filter_In in Hin. apply H1, Hin.
  - intros w x. rewrite Hw. apply H2.
  - intros w t Hin. apply filter_In in Hin. rewrite Hw. apply H3, Hin.
Qed.

Lemma ownHandles_arm (type : WindowType) (d : Js.number) (st : State) :
  ownHandles st ->
  ownHandles (set_timer type (Some (nextHandle st)) (snd (setTimeout type d st))).
Proof.
  intros (H1 & H2 & H3). repeat apply conj.
  - intros t Hin. simpl in Hin. apply in_app_or in Hin. destruct Hin as [Hin|[E|[]]].
    + apply H1 in Hin. simpl. lia.
    + subst t. simpl. lia.
  - intros w h Hw. simpl.
    destruct type, w; simpl in Hw;
      try (inversion Hw; subst; lia);
      [apply (H2 Secondary) in Hw | apply (H2 Primary) in Hw]; lia.
  - intros w t Hin Hw. simpl in Hin. apply in_app_or in Hin.
    destruct Hin as [Hin|[E|[]]].
    + pose proof (H1 t Hin) as Hlt.
      destruct type, w; simpl in Hw;
        try (inversion Hw; lia);
        [apply (H3 Secondary) | apply (H3 Primary)]; assumption.
    + subst t. simpl in *.
      destruct type, w; simpl in Hw; try reflexivity;
        [apply (H2 Secondary) in Hw | apply (H2 Primary) in Hw]; lia.
Qed.

Lemma ownHandles_reachable (st : State) : reachable st -> ownHandles st.
Proof.
  apply preserved_reachable.
  - intros ps s. apply ownHandles_same; reflexivity.
  - intros headers l s _. apply ownHandles_same; reflexivity.
  - intros w t s. apply ownHandles_same; destruct w; reflexivity.
  - intros w b s. apply ownHandles_same; destruct w; reflexivity.
  - apply ownHandles_forget.
  - apply ownHandles_remove.
  - intros type d s _. apply ownHandles_arm.
  - intros date p s. apply ownHandles_same; reflexivity.
  - repeat apply conj; simpl; try contradiction; intros [|] h; discriminate.
Qed.

Lemma filter_absorb {A : Type} (f g : A -> bool) (l : list A) :
  (forall x, In x l -> f x = true -> g x = true) ->
  List.filter f (List.filter g l) = List.filter f l.
Proof.
  induction l as [|x l IH]; intros H; simpl; [reflexivity|].
  assert (IH' : List.filter f (List.filter g l) = List.filter f l)
    by (apply IH; intros y Hy; apply H; right; exact Hy).
  destruct (g x) eqn:Hg; simpl.
  - rewrite IH'. reflexivity.
  - destruct (f x) eqn:Hf; [|exact IH'].
    rewrite (H x (or_introl eq_refl) Hf) in Hg. discriminate.
Qed.

Lemma window_matches (t : Timer) (w : WindowType) :
  match window t, w with
  | Primary, Primary | Secondary, Secondary => true
  | _, _ => false
  end = true <-> window t = w.
Proof. destruct (window t), w; split; congruence. Qed.

Lemma In_liveTimers (w : WindowType) (st : State) (t : Timer) :
  In t (liveTimers w st) <-> In t (timers st) /\ window t = w.
Proof.
  unfold liveTimers. rewrite filter_In, window_matches. reflexivity.
Qed.

(** Under [ownHandles], cancelling the timer a window holds leaves the
    live timers of the other window as they are. *)
Lemma clearStored_other (w w' : WindowType) (st : State) :
  ownHandles st -> w <> w' ->
  liveTimers w' (clearStored w st) = liveTimers w' st.
Proof.
  intros (_ & _ & H3) Hne. unfold clearStored.
  destruct (timerOf w st) as [h|] eqn:Hh; [|reflexivity].
  unfold liveTimers, clearTimeout, removeTimer. simpl.
  apply filter_absorb. intros x Hin Hx. apply window_matches in Hx.
  unfold has_handle. destruct (Nat.eqb (handle x) h) eqn:E; [|reflexivity].
  apply Nat.eqb_eq in E. subst h. apply (H3 w x Hin) in Hh. congruence.
Qed.

(** X1.  In every state the extension reaches, the handle stored for a
    window refers, if to a live timer at all, to a timer of that window;
    so cancelling the timer a window holds never cancels a timer of the
    other window. *)
Theorem stored_handle_of_own_window (st : State) :
  reachable st ->
  (forall w t, In t (timers st) -> timerOf w st = Some (handle t) -> window t = w) /\
  (forall w w', w <> w' -> liveTimers w' (clearStored w st) = liveTimers w' st).
Proof.
  intros Hr. apply ownHandles_reachable in Hr. split.
  - apply Hr.
  - intros w w'. apply clearStored_other, Hr.
Qed.

Lemma reachable_after (es : list Event) :
  happens es = true -> reachable (after es).
Proof.
  unfold happens, after, reachable. intros H. exists es.
  destruct (run es initial); [reflexivity | discriminate].
Qed.

(** The state after the primary timer fired and its ping settled. *)
Lemma stored_handle_of_own_window_witness :
  reachable (after primary_fired) /\
  forall w w', w <> w' ->
    liveTimers w' (clearStored w (after primary_fired))
    = liveTimers w' (after primary_fired).
Proof.
  assert (H : reachable (after primary_fired))
    by (apply reachable_after; vm_compute; reflexivity).
  exact (conj H (proj2 (stored_handle_of_own_window _ H))).
Defined.

(** X2.  Every live timer of a reachable state was set with a delay above
    zero: [schedulePing] never hands [setTimeout] a zero, a negative or a
    NaN delay. *)
Theorem timers_have_positive_delay (st : State) :
  reachable st ->
  forall t, In t (timers st) ->
    Js.gt (delay t) Js.zero = true /\ Js.isNaN (delay t) = false.
Proof.
  intros Hr.
  assert (H : positiveDelays st).
  { revert Hr. apply preserved_reachable; unfold positiveDelays.
    - intros ps s H. exact H.
    - intros headers l s _ H. exact H.
    - intros w t s H. exact H.
    - intros w b s H. exact H.
    - intros w s H. exact H.
    - intros h s H t Hin. apply filter_In in Hin. apply H, Hin.
    - intros type d s Hd H t Hin. simpl in Hin. apply in_app_or in Hin.
      destruct Hin as [Hin|[E|[]]]; [apply H, Hin | subst t; exact Hd].
    - intros date p s H. exact H.
    - intros t []. }
  intros t Hin. pose proof (H t Hin) as Hd. split; [exact Hd|].
  destruct (delay t); try reflexivity. discriminate.
Qed.

Lemma timers_have_positive_delay_witness :
  reachable (after primary_fired) /\
  forall t, In t (timers (after primary_fired)) ->
    Js.gt (delay t) Js.zero = true /\ Js.isNaN (delay t) = false.
Proof.
  assert (H : reachable (after primary_fired))
    by (apply reachable_after; vm_compute; reflexivity).
  exact (conj H (timers_have_positive_delay _ H)).
Defined.

(** X3.  In every reachable state [lastPingTime] is unset exactly when
    [pingCount] is 0: the panel reads "Last Ping: Never" exactly when it
    reads "Total Pings: 0". *)
Theorem never_pinged_iff_zero (st : State) :
  reachable st -> (lastPingTime st = None <-> pingCount st = 0).
Proof.
  intros Hr.
  assert (H : counted st).
  { revert Hr. apply preserved_reachable; unfold counted.
    - intros ps s H. exact H.
    - intros headers l s _ H. exact H.
    - intros w t s H. exact H.
    - intros w b s H. exact H.
    - intros w s H. exact H.
    - intros h s H. exact H.
    - intros type d s _ H. exact H.
    - intros date p s [H0 _]. simpl. split; [lia|]. split; [discriminate | lia].
    - simpl. split; [lia | tauto]. }
  apply H.
Qed.

Lemma never_pinged_iff_zero_witness :
  reachable (after primary_fired) /\
  (lastPingTime (after primary_fired) = None <-> pingCount (after primary_fired) = 0).
Proof.
  assert (H : reachable (after primary_fired))
    by (apply reachable_after; vm_compute; reflexivity).
  exact (conj H (never_pinged_iff_zero _ H)).
Defined.

Lemma extractLimits_nonempty (headers : gmap string string) (l : RateLimits) :
  extractLimits headers = Some l -> primary l <> None \/ secondary l <> None.
Proof.
  rewrite extractLimits_unfold.
  destruct (extractWindow headers (usedHeader Primary) _),
           (extractWindow headers (usedHeader Secondary) _);
    intros H; inversion H; subst; simpl; auto; try (left; discriminate);
    right; discriminate.
Qed.

Lemma extractLimits_window (headers : gmap string string) (l : RateLimits)
    (w : WindowType) (rw : RateWindow) :
  extractLimits headers = Some l -> windowOf w l = Some rw ->
  Js.isNaN (used_percent rw) = false /\
  forall s, resets_in_seconds rw = Some s -> Js.truthy s = true.
Proof.
  intros He Hw.
  assert (Hx : extracted w headers = Some rw) by (unfold extracted; rewrite He; exact Hw).
  rewrite extracted_window in Hx. unfold extractWindow in Hx.
  destruct (parseHeader headers (usedHeader w)) as [p|] eqn:Hp; [|discriminate].
  inversion Hx; subst; clear Hx; simpl. split.
  - apply parseHeader_Some in Hp; [|apply usedHeader_lower].
    destruct Hp as (s & _ & Hs & Hn). exact Hn.
  - intros s Hs. apply or_undefined_Some in Hs. apply Hs.
Qed.

(** X4.  In every reachable state [lastLimits], when set, is a snapshot that
    [extractLimits] returned from some headers: it has at least one
    window, no [used_percent] in it is NaN, and a [resets_in_seconds]
    present in it is neither zero nor NaN. *)
Theorem lastLimits_is_extracted (st : State) (l : RateLimits) :
  reachable st ->
  lastLimits st = Some l ->
  (exists headers, extractLimits headers = Some l) /\
  (primary l <> None \/ secondary l <> None) /\
  (forall w rw, windowOf w l = Some rw ->
     Js.isNaN (used_percent rw) = false /\
     forall s, resets_in_seconds rw = Some s -> Js.truthy s = true).
Proof.
  intros Hr Hl.
  assert (H : lastExtracted st).
  { revert Hr. apply preserved_reachable; unfold lastExtracted.
    - intros ps s H. exact H.
    - intros headers l0 s He _ l1 E. simpl in E. inversion E; subst. eauto.
    - intros w t s H. exact H.
    - intros w b s H. exact H.
    - intros w s H. exact H.
    - intros h s H. exact H.
    - intros type d s _ H. exact H.
    - intros date p s H. exact H.
    - intros l0 E. discriminate. }
  destruct (H l Hl) as [headers He]. split; [eauto|]. split.
  - eapply extractLimits_nonempty; eauto.
  - intros w rw. eapply extractLimits_window; eauto.
Qed.

Lemma lastLimits_is_extracted_witness :
  reachable (after first_poll) /\
  lastLimits (after first_poll) = Some snapshot_both /\
  (primary snapshot_both <> None \/ secondary snapshot_both <> None).
Proof.
  assert (H : reachable (after first_poll))
    by (apply reachable_after; vm_compute; reflexivity).
  assert (Hl : lastLimits (after first_poll) = Some snapshot_both)
    by (vm_compute; reflexivity).
  split; [exact H|]. split; [exact Hl|].
  exact (proj1 (proj2 (lastLimits_is_extracted _ _ H Hl))).
Defined.

(** ** What [schedulePing] and the window blocks touch *)

(** The three outcomes of [schedulePing], with what each one presupposes. *)
Lemma schedulePing_outcome (r : ArmReadings) (rt : option Js.number)
    (type : WindowType) (st : State) :
  let st' := stateOf (schedulePing r rt type st) in
  st' = st \/
  (enabledOf type st = true /\
   exists d, Js.gt d Js.zero = true /\
             st' = set_timer type (Some (nextHandle st)) (snd (setTimeout type d st))) \/
  (enabledOf type st = true /\ arm_auth r <> None /\
   st' = startPing (arm_date r) (ImmediatePing type) st).
Proof.
  unfold schedulePing. destruct rt as [t|]; simpl; auto.
  destruct (Js.truthy t); simpl; auto.
  destruct (enabledOf type st) eqn:He; simpl; auto.
  destruct (Js.gt _ _) eqn:Hd.
  - right; left. split; [reflexivity|]. eexists. split; [exact Hd|].
    destruct (validDate t); reflexivity.
  - destruct (arm_auth r) eqn:Ha; simpl; [|left; reflexivity].
    right; right. split; [reflexivity|]. split; [discriminate | reflexivity].
Qed.

Lemma enabledOf_schedulePing (r : ArmReadings) (rt : option Js.number)
    (type w : WindowType) (st : State) :
  enabledOf w (stateOf (schedulePing r rt type st)) = enabledOf w st.
Proof.
  destruct (schedulePing_cases r rt type st) as [H|[[d H]|H]]; rewrite H;
    destruct w, type; reflexivity.
Qed.

Lemma enabledOf_clearStored (w0 w : WindowType) (st : State) :
  enabledOf w (clearStored w0 st) = enabledOf w st.
Proof.
  destruct (clearStored_cases w0 st) as [E|[h E]]; rewrite E; destruct w; reflexivity.
Qed.

Lemma enabledOf_reconcileWindow (w0 w : WindowType) (r : Readings)
    (limits : RateLimits) (st : State) :
  enabledOf w (stateOf (reconcileWindow w0 r limits st)) = enabledOf w st.
Proof.
  destruct (reconcileWindow_cases w0 r limits st) as [H|[H|H]]; rewrite H;
    rewrite ?enabledOf_schedulePing; try reflexivity;
    (transitivity (enabledOf w (clearStored w0 st));
     [destruct w, w0; reflexivity | apply enabledOf_clearStored]).
Qed.

Lemma In_timers_clearStored (w : WindowType) (st : State) (x : Timer) :
  In x (timers (clearStored w st)) -> In x (timers st).
Proof.
  destruct (clearStored_cases w st) as [E|[h E]]; rewrite E; [auto|].
  simpl. intros H. apply filter_In in H. apply H.
Qed.

(** A timer that is live after [schedulePing] was live before, or is the
    one just set, for the window [type], which is enabled. *)
Lemma In_timers_schedulePing (r : ArmReadings) (rt : option Js.number)
    (type : WindowType) (st : State) (x : Timer) :
  In x (timers (stateOf (schedulePing r rt type st))) ->
  In x (timers st) \/ (window x = type /\ enabledOf type st = true).
Proof.
  destruct (schedulePing_outcome r rt type st) as [H|[(He & d & _ & H)|(_ & _ & H)]];
    rewrite H; simpl; auto.
  intros Hin. apply in_app_or in Hin. destruct Hin as [Hin|[E|[]]]; auto.
  subst x. right. auto.
Qed.

Lemma In_timers_reconcileWindow (w : WindowType) (r : Readings)
    (limits : RateLimits) (st : State) (x : Timer) :
  In x (timers (stateOf (reconcileWindow w r limits st))) ->
  In x (timers st) \/ (window x = w /\ enabledOf w st = true).
Proof.
  destruct (reconcileWindow_cases w r limits st) as [H|[H|H]]; rewrite H; auto.
  - intros Hin. left. apply (In_timers_clearStored w st).
    destruct w; exact Hin.
  - intros Hin. apply In_timers_schedulePing in Hin.
    destruct Hin as [Hin|[Hw He]].
    + left. apply (In_timers_clearStored w st). destruct w; exact Hin.
    + right. split; [exact Hw|].
      rewrite <- (enabledOf_clearStored w w st). destruct w; exact He.
Qed.

Lemma In_timers_applyLimits (r : Readings) (limits : RateLimits) (st : State)
    (x : Timer) :
  In x (timers (stateOf (applyLimits r limits st))) ->
  In x (timers st) \/ enabledOf (window x) st = true.
Proof.
  unfold applyLimits.
  pose proof (In_timers_reconcileWindow Primary r limits (set_lastLimits (Some limits) st) x) as H1.
  pose proof (enabledOf_reconcileWindow Primary (window x) r limits
                (set_lastLimits (Some limits) st)) as E1.
  destruct (reconcileWindow Primary r limits (set_lastLimits (Some limits) st)) as [s|s];
    cbn [andThen stateOf] in *.
  - intros Hin. apply In_timers_reconcileWindow in Hin.
    destruct Hin as [Hin|[Hw He]].
    + destruct (H1 Hin) as [H|[Hw He]]; [left; exact H|].
      right. rewrite Hw. destruct (window x); exact He.
    + right. rewrite <- Hw in He. rewrite E1 in He. destruct (window x); exact He.
  - intros Hin. destruct (H1 Hin) as [H|[Hw He]]; [left; exact H|].
    right. rewrite Hw. destruct (window x); exact He.
Qed.

Lemma enabledOf_applyLimits (r : Readings) (limits : RateLimits) (st : State)
    (w : WindowType) :
  enabledOf w (stateOf (applyLimits r limits st)) = enabledOf w st.
Proof.
  unfold applyLimits.
  pose proof (enabledOf_reconcileWindow Primary w r limits
                (set_lastLimits (Some limits) st)) as E1.
  destruct (reconcileWindow Primary r limits (set_lastLimits (Some limits) st)) as [s|s];
    cbn [andThen stateOf] in *.
  - rewrite enabledOf_reconcileWindow, E1. destruct w; reflexivity.
  - rewrite E1. destruct w; reflexivity.
Qed.

Lemma In_timers_toggle (w : WindowType) (b : bool) (r : ArmReadings) (st : State)
    (x : Timer) :
  In x (timers (toggle w b r st)) ->
  In x (timers st) \/ (window x = w /\ enabledOf w (toggle w b r st) = true).
Proof.
  unfold toggle. cbv zeta.
  destruct (negb _ && _).
  - intros Hin. left.
    assert (Hin' : In x (timers (clearStored w (set_enabled w b st))))
      by (destruct w; exact Hin).
    apply In_timers_clearStored in Hin'. exact Hin'.
  - destruct (_ && _); [|auto].
    rewrite enabledOf_schedulePing. intros Hin.
    apply In_timers_schedulePing in Hin. destruct Hin as [Hin|Hin]; auto.
Qed.

Lemma enabledOf_toggle_other (w w' : WindowType) (b : bool) (r : ArmReadings)
    (st : State) :
  w <> w' -> enabledOf w' (toggle w b r st) = enabledOf w' st.
Proof.
  intros Hne. unfold toggle. cbv zeta.
  destruct (negb _ && _).
  - transitivity (enabledOf w' (clearStored w (set_enabled w b st)));
      [destruct w, w'; reflexivity|].
    rewrite enabledOf_clearStored. destruct w, w'; try reflexivity; congruence.
  - destruct (_ && _); rewrite ?enabledOf_schedulePing;
      destruct w, w'; try reflexivity; congruence.
Qed.

(** X5.  No task sets a timer for a window that is disabled when the task
    ends: every timer of that window that is live afterwards was live
    before. *)
Theorem no_timer_for_disabled_window (e : Event) (st st' : State)
    (w : WindowType) :
  step e st = Some st' ->
  enabledOf w st' = false ->
  forall t, In t (liveTimers w st') -> In t (liveTimers w st).
Proof.
  intros Hstep Hoff t Ht. apply In_liveTimers in Ht. destruct Ht as [Hin Hw].
  apply In_liveTimers. split; [|exact Hw]. subst w.
  destruct e as [auth|h auth date|i tr r|command enabled r]; simpl in Hstep.
  - inversion Hstep; subst. destruct auth; exact Hin.
  - destruct (find_timer h st) as [x|]; [|discriminate].
    inversion Hstep; subst; clear Hstep.
    assert (Hin' : In t (timers (removeTimer h st)))
      by (destruct auth, (window x); exact Hin).
    simpl in Hin'. apply filter_In in Hin'. apply Hin'.
  - destruct (take_nth i (inflight st)) as [[p rest]|]; [|discriminate].
    inversion Hstep; subst; clear Hstep.
    assert (Ha : forall l,
               In t (timers (stateOf (applyLimits r l (set_inflight rest st)))) ->
               enabledOf (window t) (stateOf (applyLimits r l (set_inflight rest st))) = false ->
               In t (timers st)).
    { intros l Hl He. rewrite enabledOf_applyLimits in He.
      apply In_timers_applyLimits in Hl. destruct Hl as [Hl|Hl]; [exact Hl|].
      congruence. }
    unfold checkLimits_resume, timerCallback_resume, immediate_resume in *.
    destruct (pingCodex tr) as [l|].
    + destruct p as [|type|type]; try (apply (Ha l); assumption).
      destruct (applyLimits r l (set_inflight rest st)) as [s|s] eqn:E;
        apply (Ha l); rewrite E; simpl;
        try assumption; destruct type, (window t); assumption.
    + destruct p as [|type|type]; exact Hin.
  - inversion Hstep; subst; clear Hstep. unfold onDidReceiveMessage in *.
    destruct (String.eqb command "togglePrimary");
      [|destruct (String.eqb command "toggleSecondary"); [|exact Hin]];
      (apply In_timers_toggle in Hin; destruct Hin as [Hin|[Hw He]];
       [exact Hin | rewrite <- Hw in He; congruence]).
Qed.

Lemma no_timer_for_disabled_window_witness :
  step (PingSettles 0 (Response headers_later) (readingsAt (startup + 400010)))
       (after (primary_disabled ++ [TimerFires 3 (Some credentials) (startup + 400005)]))
  = Some (after (primary_disabled ++
                 [TimerFires 3 (Some credentials) (startup + 400005);
                  PingSettles 0 (Response headers_later) (readingsAt (startup + 400010))])) /\
  forall t,
    In t (liveTimers Primary
            (after (primary_disabled ++
                    [TimerFires 3 (Some credentials) (startup + 400005);
                     PingSettles 0 (Response headers_later)
                       (readingsAt (startup + 400010))]))) ->
    In t (liveTimers Primary
            (after (primary_disabled ++
                    [TimerFires 3 (Some credentials) (startup + 400005)]))).
Proof.
  assert (H : step (PingSettles 0 (Response headers_later) (readingsAt (startup + 400010)))
       (after (primary_disabled ++ [TimerFires 3 (Some credentials) (startup + 400005)]))
  = Some (after (primary_disabled ++
                 [TimerFires 3 (Some credentials) (startup + 400005);
                  PingSettles 0 (Response headers_later) (readingsAt (startup + 400010))])))
    by (vm_compute; reflexivity).
  split; [exact H|].
  apply (no_timer_for_disabled_window _ _ _ Primary H).
  vm_compute; reflexivity.
Defined.

(** ** Without credentials *)

Lemma schedulePing_logged_out (r : ArmReadings) (rt : option Js.number)
    (type : WindowType) (st : State) :
  arm_auth r = None ->
  let st' := stateOf (schedulePing r rt type st) in
  pingCount st' = pingCount st /\ lastPingTime st' = lastPingTime st /\
  inflight st' = inflight st.
Proof.
  intros Ha. cbv zeta.
  destruct (schedulePing_outcome r rt type st) as [H|[(_ & d & _ & H)|(_ & Hn & _)]];
    [rewrite H | rewrite H | congruence]; simpl; auto.
Qed.

Lemma reconcileWindow_logged_out (w : WindowType) (r : Readings)
    (limits : RateLimits) (st : State) :
  arm_auth (armOf w r) = None ->
  let st' := stateOf (reconcileWindow w r limits st) in
  pingCount st' = pingCount st /\ lastPingTime st' = lastPingTime st /\
  inflight st' = inflight st.
Proof.
  intros Ha.
  assert (Hc : forall t,
             pingCount (set_resetTime w t (clearStored w st)) = pingCount st /\
             lastPingTime (set_resetTime w t (clearStored w st)) = lastPingTime st /\
             inflight (set_resetTime w t (clearStored w st)) = inflight st).
  { intros t. destruct (clearStored_cases w st) as [E|[h E]]; rewrite E; simpl; auto. }
  cbv zeta.
  destruct (reconcileWindow_cases w r limits st) as [H|[H|H]]; rewrite H.
  - auto.
  - apply (Hc (newReset (now2 r) (windowOf w limits))).
  - destruct (schedulePing_logged_out (armOf w r)
                (newReset (now2 r) (windowOf w limits)) w
                (set_resetTime w (newReset (now2 r) (windowOf w limits)) (clearStored w st))
                Ha) as (H1 & H2 & H3).
    destruct (Hc (newReset (now2 r) (windowOf w limits))) as (C1 & C2 & C3).
    repeat split; congruence.
Qed.

Lemma applyLimits_logged_out (r : Readings) (limits : RateLimits) (st : State) :
  arm_auth (arm_primary r) = None -> arm_auth (arm_secondary r) = None ->
  let st' := stateOf (applyLimits r limits st) in
  pingCount st' = pingCount st /\ lastPingTime st' = lastPingTime st /\
  inflight st' = inflight st.
Proof.
  intros Hp Hs. unfold applyLimits.
  pose proof (reconcileWindow_logged_out Primary r limits
                (set_lastLimits (Some limits) st) Hp) as H1.
  destruct (reconcileWindow Primary r limits (set_lastLimits (Some limits) st)) as [s|s];
    cbn [andThen stateOf] in *; [|exact H1].
  pose proof (reconcileWindow_logged_out Secondary r limits s Hs) as H2.
  simpl in *. destruct H1 as (A1 & A2 & A3), H2 as (B1 & B2 & B3).
  repeat split; congruence.
Qed.

Lemma take_nth_incl {A : Type} (i : nat) (l rest : list A) (x : A) :
  take_nth i l = Some (x, rest) -> incl rest l.
Proof.
  revert i rest. induction l as [|y l IH]; intros [|i] rest; simpl;
    try discriminate.
  - intros H; inversion H; subst. apply incl_tl, incl_refl.
  - destruct (take_nth i l) as [[z r']|] eqn:E; [|discriminate].
    intros H; inversion H; subst.
    apply incl_cons; [left; reflexivity|]. apply incl_tl. eapply IH; eauto.
Qed.

(** X6.  A task in which [loadAuth()] finds no credentials contacts nobody:
    it starts no ping, and leaves [pingCount] and [lastPingTime] as they
    were. *)
Theorem no_credentials_no_ping (e : Event) (st st' : State) :
  (forall a, In a (credentialsOf e) -> a = None) ->
  step e st = Some st' ->
  pingCount st' = pingCount st /\
  lastPingTime st' = lastPingTime st /\
  incl (inflight st') (inflight st).
Proof.
  intros Hnone.
  destruct e as [auth|h auth date|i t r|command enabled r]; simpl in *.
  - rewrite (Hnone auth) by auto. intros H; inversion H; subst.
    repeat split. apply incl_refl.
  - rewrite (Hnone auth) by auto.
    destruct (find_timer h st) as [x|]; [|discriminate].
    intros H; inversion H; subst. destruct (window x); repeat split; apply incl_refl.
  - assert (Hp : arm_auth (arm_primary r) = None) by auto.
    assert (Hs : arm_auth (arm_secondary r) = None) by auto.
    destruct (take_nth i (inflight st)) as [[p rest]|] eqn:Ht; [|discriminate].
    apply take_nth_incl in Ht.
    intros H; inversion H; subst; clear H.
    unfold checkLimits_resume, timerCallback_resume, immediate_resume.
    destruct (pingCodex t) as [l|].
    + pose proof (applyLimits_logged_out r l (set_inflight rest st) Hp Hs) as Ha.
      simpl in Ha. destruct Ha as (A1 & A2 & A3).
      destruct p as [|type|type]; try (rewrite A1, A2, A3; auto).
      destruct (applyLimits r l (set_inflight rest st)) as [s|s]; simpl in *;
        rewrite ?A1, ?A2, ?A3; destruct type; simpl; rewrite ?A1, ?A2, ?A3; auto.
    + destruct p as [|[|]|type]; simpl; auto.
  - assert (Ha : arm_auth r = None) by auto.
    intros H; inversion H; subst; clear H. unfold onDidReceiveMessage.
    assert (Ht : forall w,
               pingCount (toggle w enabled r st) = pingCount st /\
               lastPingTime (toggle w enabled r st) = lastPingTime st /\
               incl (inflight (toggle w enabled r st)) (inflight st)).
    { intros w. unfold toggle. cbv zeta.
      destruct (negb _ && _).
      - destruct (clearStored_cases w (set_enabled w enabled st)) as [E|[h E]];
          rewrite E; destruct w; simpl; repeat split; apply incl_refl.
      - destruct (_ && _).
        + destruct (schedulePing_logged_out r
                      (resetTimeOf w (set_enabled w enabled st)) w
                      (set_enabled w enabled st) Ha) as (H1 & H2 & H3).
          rewrite H1, H2, H3. destruct w; simpl; repeat split; apply incl_refl.
        + destruct w; simpl; repeat split; apply incl_refl. }
    destruct (String.eqb command "togglePrimary"); [apply Ht|].
    destruct (String.eqb command "toggleSecondary"); [apply Ht|].
    repeat split. apply incl_refl.
Qed.

Lemma no_credentials_no_ping_witness :
  (forall a, In a (credentialsOf (TimerFires 0 None (startup + 300000))) -> a = None) /\
  step (TimerFires 0 None (startup + 300000)) (after first_poll)
  = Some (set_timer Primary None (removeTimer 0 (after first_poll))) /\
  pingCount (set_timer Primary None (removeTimer 0 (after first_poll)))
  = pingCount (after first_poll).
Proof.
  assert (Hc : forall a, In a (credentialsOf (TimerFires 0 None (startup + 300000))) ->
                         a = None).
  { intros a [H|[]]. symmetry; exact H. }
  assert (Hs : step (TimerFires 0 None (startup + 300000)) (after first_poll)
               = Some (set_timer Primary None (removeTimer 0 (after first_poll))))
    by (vm_compute; reflexivity).
  split; [exact Hc|]. split; [exact Hs|].
  exact (proj1 (no_credentials_no_ping _ _ _ Hc Hs)).
Defined.

(** ** The two windows do not disturb each other *)

Lemma liveTimers_arm_other (type w : WindowType) (d : Js.number) (st : State) :
  type <> w ->
  liveTimers w (set_timer type (Some (nextHandle st)) (snd (setTimeout type d st)))
  = liveTimers w st.
Proof.
  intros Hne. unfold liveTimers. simpl. rewrite List.filter_app. simpl.
  destruct type, w; try congruence; simpl; apply app_nil_r.
Qed.

Lemma scheduleOf_schedulePing_other (r : ArmReadings) (rt : option Js.number)
    (type w : WindowType) (st : State) :
  type <> w ->
  scheduleOf w (stateOf (schedulePing r rt type st)) = scheduleOf w st.
Proof.
  intros Hne. unfold scheduleOf.
  destruct (schedulePing_cases r rt type st) as [H|[[d H]|H]]; rewrite H.
  - reflexivity.
  - rewrite liveTimers_arm_other by exact Hne.
    destruct type, w; try congruence; reflexivity.
  - destruct type, w; reflexivity.
Qed.

Lemma scheduleOf_clearStored_other (w w' : WindowType) (st : State) :
  ownHandles st -> w <> w' ->
  scheduleOf w' (clearStored w st) = scheduleOf w' st.
Proof.
  intros Ho Hne. unfold scheduleOf. rewrite (clearStored_other w w' st Ho Hne).
  destruct (clearStored_cases w st) as [E|[h E]]; rewrite E; destruct w'; reflexivity.
Qed.

Lemma scheduleOf_reconcileWindow_other (w w' : WindowType) (r : Readings)
    (limits : RateLimits) (st : State) :
  ownHandles st -> w <> w' ->
  scheduleOf w' (stateOf (reconcileWindow w r limits st)) = scheduleOf w' st.
Proof.
  intros Ho Hne.
  assert (Hs : forall t, scheduleOf w' (set_resetTime w t (clearStored w st))
                         = scheduleOf w' st).
  { intros t. rewrite <- (scheduleOf_clearStored_other w w' st Ho Hne).
    destruct w, w'; try congruence; reflexivity. }
  destruct (reconcileWindow_cases w r limits st) as [H|[H|H]]; rewrite H.
  - reflexivity.
  - apply Hs.
  - rewrite scheduleOf_schedulePing_other by exact Hne. apply Hs.
Qed.

(** X7.  In a reachable state, the block that reconciles one window leaves
    the schedule of the other window (its switch, reset time, handle and
    live timers) exactly as it was. *)
Theorem reconcile_leaves_other_window (w w' : WindowType) (r : Readings)
    (limits : RateLimits) (st : State) :
  reachable st -> w <> w' ->
  scheduleOf w' (stateOf (reconcileWindow w r limits st)) = scheduleOf w' st.
Proof.
  intros Hr. apply scheduleOf_reconcileWindow_other, ownHandles_reachable, Hr.
Qed.

Lemma reconcile_leaves_other_window_witness :
  reachable (after primary_fired) /\ Primary <> Secondary /\
  scheduleOf Secondary
    (stateOf (reconcileWindow Primary (readingsAt (startup + 400010)) snapshot_both
                (after primary_fired)))
  = scheduleOf Secondary (after primary_fired).
Proof.
  assert (H : reachable (after primary_fired))
    by (apply reachable_after; vm_compute; reflexivity).
  assert (Hne : Primary <> Secondary) by discriminate.
  exact (conj H (conj Hne (reconcile_leaves_other_window _ _ _ _ _ H Hne))).
Defined.

(** X8.  In a reachable state, switching one window on or off leaves the
    schedule of the other window exactly as it was, and never changes the
    reset time of the window that is switched. *)
Theorem toggle_leaves_other_window (w w' : WindowType) (b : bool)
    (r : ArmReadings) (st : State) :
  reachable st -> w <> w' ->
  scheduleOf w' (toggle w b r st) = scheduleOf w' st /\
  resetTimeOf w (toggle w b r st) = resetTimeOf w st.
Proof.
  intros Hr Hne. apply ownHandles_reachable in Hr.
  assert (Ho : ownHandles (set_enabled w b st))
    by (revert Hr; apply ownHandles_same; destruct w; reflexivity).
  assert (He : scheduleOf w' (set_enabled w b st) = scheduleOf w' st)
    by (destruct w, w'; try congruence; reflexivity).
  assert (Hx : resetTimeOf w (set_enabled w b st) = resetTimeOf w st)
    by (destruct w; reflexivity).
  unfold toggle. cbv zeta. destruct (negb _ && _).
  - split.
    + rewrite <- He, <- (scheduleOf_clearStored_other w w' _ Ho Hne).
      destruct w, w'; try congruence; reflexivity.
    + rewrite <- Hx.
      destruct (clearStored_cases w (set_enabled w b st)) as [E|[h E]]; rewrite E;
        destruct w; reflexivity.
  - destruct (_ && _).
    + rewrite scheduleOf_schedulePing_other by exact Hne.
      rewrite schedulePing_resetTime. auto.
    + auto.
Qed.

Lemma toggle_leaves_other_window_witness :
  reachable (after primary_fired) /\ Secondary <> Primary /\
  scheduleOf Primary
    (toggle Secondary false (armAt (startup + 350000) (Some credentials))
       (after primary_fired))
  = scheduleOf Primary (after primary_fired).
Proof.
  assert (H : reachable (after primary_fired))
    by (apply reachable_after; vm_compute; reflexivity).
  assert (Hne : Secondary <> Primary) by discriminate.
  exact (conj H (conj Hne (proj1 (toggle_leaves_other_window _ _ false
           (armAt (startup + 350000) (Some credentials)) _ H Hne)))).
Defined.

(** ** Applying the same snapshot again *)

(** X9.  The block of a window is idempotent: run again with the same
    snapshot and the same clock reading, it changes nothing, provided the
    candidate is not NaN (NaN differs from itself, so such a candidate
    re-arms every time). *)
Theorem reconcileWindow_idempotent (w : WindowType) (r : Readings)
    (limits : RateLimits) (st : State) :
  (forall t, newReset (now2 r) (windowOf w limits) = Some t -> Js.isNaN t = false) ->
  reconcileWindow w r limits (stateOf (reconcileWindow w r limits st))
  = Normal (stateOf (reconcileWindow w r limits st)).
Proof.
  intros Hn. apply reconcileWindow_equal.
  destruct (Js.strict_neq (newReset (now2 r) (windowOf w limits)) (resetTimeOf w st)) eqn:Hd.
  - rewrite (reconcileWindow_resetTime_differs w r limits st Hd).
    destruct (newReset (now2 r) (windowOf w limits)) as [t|]; [|reflexivity].
    simpl. rewrite eq_same; [reflexivity | apply Hn; reflexivity].
  - rewrite (reconcileWindow_equal w r limits st Hd). exact Hd.
Qed.

Lemma reconcileWindow_idempotent_witness :
  (forall t, newReset (now2 (readingsAt startup)) (windowOf Primary snapshot_both) = Some t ->
             Js.isNaN t = false) /\
  reconcileWindow Primary (readingsAt startup) snapshot_both
    (stateOf (reconcileWindow Primary (readingsAt startup) snapshot_both initial))
  = Normal (stateOf (reconcileWindow Primary (readingsAt startup) snapshot_both initial)).
Proof.
  assert (H : forall t, newReset (now2 (readingsAt startup))
                          (windowOf Primary snapshot_both) = Some t ->
                        Js.isNaN t = false).
  { intros t Ht. vm_compute in Ht. inversion Ht; subst. reflexivity. }
  exact (conj H (reconcileWindow_idempotent _ _ _ _ H)).
Defined.

(** ** When applying limits raises *)

Lemma schedulePing_Throw (r : ArmReadings) (rt : option Js.number)
    (type : WindowType) (st st' : State) :
  schedulePing r rt type st = Throw st' ->
  exists t, rt = Some t /\ validDate t = false.
Proof.
  unfold schedulePing. destruct rt as [t|]; [|discriminate].
  destruct (Js.truthy t); simpl; [|discriminate].
  destruct (enabledOf type st); simpl; [|discriminate].
  destruct (Js.gt _ _).
  - destruct (validDate t) eqn:Hv; [discriminate|]. eauto.
  - destruct (arm_auth r); discriminate.
Qed.

Lemma reconcileWindow_Throw (w : WindowType) (r : Readings)
    (limits : RateLimits) (st st' : State) :
  reconcileWindow w r limits st = Throw st' ->
  exists t, newReset (now2 r) (windowOf w limits) = Some t /\ validDate t = false.
Proof.
  unfold reconcileWindow. cbv zeta.
  destruct (Js.strict_neq _ _); [|discriminate].
  destruct (enabledOf w _); [|discriminate].
  apply schedulePing_Throw.
Qed.

(** X10.  Applying new limits raises no exception when every candidate
    reset time is a valid date (finite, of magnitude at most 8.64e15 ms):
    both window blocks are then run. *)
Theorem applyLimits_completes (r : Readings) (limits : RateLimits) (st : State) :
  (forall w t, newReset (now2 r) (windowOf w limits) = Some t -> validDate t = true) ->
  exists st1,
    reconcileWindow Primary r limits (set_lastLimits (Some limits) st) = Normal st1 /\
    exists st2,
      reconcileWindow Secondary r limits st1 = Normal st2 /\
      applyLimits r limits st = Normal st2.
Proof.
  intros Hv. unfold applyLimits.
  destruct (reconcileWindow Primary r limits (set_lastLimits (Some limits) st))
    as [s1|s1] eqn:E1.
  - exists s1. split; [reflexivity|]. simpl.
    destruct (reconcileWindow Secondary r limits s1) as [s2|s2] eqn:E2.
    + exists s2. auto.
    + apply reconcileWindow_Throw in E2. destruct E2 as (t & Ht & Hd).
      rewrite (Hv Secondary t Ht) in Hd. discriminate.
  - apply reconcileWindow_Throw in E1. destruct E1 as (t & Ht & Hd).
    rewrite (Hv Primary t Ht) in Hd. discriminate.
Qed.

Lemma applyLimits_completes_witness :
  (forall w t, newReset (now2 (readingsAt startup)) (windowOf w snapshot_both) = Some t ->
               validDate t = true) /\
  exists st2, applyLimits (readingsAt startup) snapshot_both initial = Normal st2.
Proof.
  assert (H : forall w t, newReset (now2 (readingsAt startup))
                            (windowOf w snapshot_both) = Some t ->
                          validDate t = true).
  { intros [|] t Ht; vm_compute in Ht; inversion Ht; subst; vm_compute; reflexivity. }
  split; [exact H|].
  destruct (applyLimits_completes (readingsAt startup) snapshot_both initial H)
    as (st1 & _ & st2 & _ & E).
  exists st2. exact E.
Defined.

(** ** Where the handle of a window's timer is kept, and where it is lost *)

Lemma ownHandles_reconcileWindow (w : WindowType) (r : Readings)
    (limits : RateLimits) (st : State) :
  ownHandles st -> ownHandles (stateOf (reconcileWindow w r limits st)).
Proof.
  apply preserved_reconcileWindow.
  - intros w0 t s. apply ownHandles_same; destruct w0; reflexivity.
  - apply ownHandles_remove.
  - intros type d s _. apply ownHandles_arm.
  - intros date p s. apply ownHandles_same; reflexivity.
Qed.

Lemma disciplined_same (w : WindowType) (st st' : State) :
  timers st' = timers st -> timerOf w st' = timerOf w st ->
  disciplined w st -> disciplined w st'.
Proof.
  intros Ht Hw. unfold disciplined, liveTimers. rewrite Ht, Hw. auto.
Qed.

Lemma liveTimers_removeTimer (w : WindowType) (h : nat) (st : State) :
  liveTimers w (removeTimer h st)
  = List.filter (fun t => negb (has_handle h t)) (liveTimers w st).
Proof.
  unfold liveTimers. simpl.
  induction (timers st) as [|x l IH]; simpl; [reflexivity|].
  destruct (has_handle h x) eqn:Hh, (window x) eqn:Hx, w; simpl;
    rewrite ?Hx, ?Hh; simpl; rewrite ?IH; reflexivity.
Qed.

Lemma disciplined_removeTimer (w : WindowType) (h : nat) (st : State) :
  disciplined w st -> disciplined w (removeTimer h st).
Proof.
  unfold disciplined. rewrite liveTimers_removeTimer.
  assert (Hw : timerOf w (removeTimer h st) = timerOf w st) by (destruct w; reflexivity).
  rewrite Hw. intros [H|(t & H & Ht)]; rewrite H; simpl; auto.
  destruct (has_handle h t); simpl; eauto.
Qed.

Lemma liveTimers_clearStored_own (w : WindowType) (st : State) :
  disciplined w st -> liveTimers w (clearStored w st) = [].
Proof.
  unfold clearStored, clearTimeout. intros [H|(t & H & Ht)].
  - destruct (timerOf w st); [rewrite liveTimers_removeTimer|]; rewrite H; reflexivity.
  - rewrite Ht, liveTimers_removeTimer, H. simpl.
    unfold has_handle. rewrite Nat.eqb_refl. reflexivity.
Qed.

Lemma timerOf_clearStored (w0 w : WindowType) (st : State) :
  timerOf w (clearStored w0 st) = timerOf w st.
Proof.
  destruct (clearStored_cases w0 st) as [E|[h E]]; rewrite E; destruct w; reflexivity.
Qed.

Lemma disciplined_clearStored (w0 w : WindowType) (st : State) :
  ownHandles st -> disciplined w st -> disciplined w (clearStored w0 st).
Proof.
  intros Ho H. destruct (clearStored_cases w0 st) as [E|[h E]]; rewrite E;
    [exact H | apply disciplined_removeTimer, H].
Qed.

Lemma liveTimers_arm_own (w : WindowType) (d : Js.number) (st : State) :
  liveTimers w (set_timer w (Some (nextHandle st)) (snd (setTimeout w d st)))
  = liveTimers w st ++ [{| handle := nextHandle st; window := w; delay := d |}].
Proof.
  unfold liveTimers. simpl. rewrite List.filter_app. simpl.
  destruct w; reflexivity.
Qed.

Lemma disciplined_arm (type w : WindowType) (d : Js.number) (st : State) :
  liveTimers type st = [] -> disciplined w st ->
  disciplined w (set_timer type (Some (nextHandle st)) (snd (setTimeout type d st))).
Proof.
  intros Hempty H.
  assert (Hd : type = w \/ type <> w) by (destruct type, w; auto; right; discriminate).
  destruct Hd as [E|Hne].
  - subst w. right. rewrite liveTimers_arm_own, Hempty. simpl.
    eexists. split; [reflexivity|]. destruct type; reflexivity.
  - unfold disciplined. rewrite (liveTimers_arm_other type w d st Hne).
    assert (Hw : timerOf w (set_timer type (Some (nextHandle st))
                              (snd (setTimeout type d st))) = timerOf w st)
      by (destruct type, w; try congruence; reflexivity).
    rewrite Hw. exact H.
Qed.

Lemma disciplined_schedulePing (r : ArmReadings) (rt : option Js.number)
    (type : WindowType) (st : State) :
  liveTimers type st = [] ->
  (forall w, disciplined w st) ->
  forall w, disciplined w (stateOf (schedulePing r rt type st)).
Proof.
  intros Hempty H w.
  destruct (schedulePing_cases r rt type st) as [E|[[d E]|E]]; rewrite E.
  - apply H.
  - apply disciplined_arm; auto.
  - revert H. intros H. apply (disciplined_same w st); [reflexivity | destruct w; reflexivity | apply H].
Qed.

Lemma disciplined_reconcileWindow (w0 : WindowType) (r : Readings)
    (limits : RateLimits) (st : State) :
  ownHandles st ->
  (forall w, disciplined w st) ->
  forall w, disciplined w (stateOf (reconcileWindow w0 r limits st)).
Proof.
  intros Ho H.
  assert (H1 : forall t w, disciplined w (set_resetTime w0 t (clearStored w0 st))).
  { intros t w. apply (disciplined_same w (clearStored w0 st));
      [reflexivity | destruct w0, w; reflexivity |].
    apply disciplined_clearStored; auto. }
  assert (Hempty : forall t, liveTimers w0 (set_resetTime w0 t (clearStored w0 st)) = []).
  { intros t. rewrite <- (liveTimers_clearStored_own w0 st (H w0)).
    destruct w0; reflexivity. }
  intros w.
  destruct (reconcileWindow_cases w0 r limits st) as [E|[E|E]]; rewrite E.
  - apply H.
  - apply H1.
  - apply disciplined_schedulePing; [apply Hempty | apply H1].
Qed.

Lemma disciplined_applyLimits (r : Readings) (limits : RateLimits) (st : State) :
  ownHandles st ->
  (forall w, disciplined w st) ->
  forall w, disciplined w (stateOf (applyLimits r limits st)).
Proof.
  intros Ho H. unfold applyLimits.
  assert (Ho0 : ownHandles (set_lastLimits (Some limits) st))
    by (revert Ho; apply ownHandles_same; reflexivity).
  assert (H0 : forall w, disciplined w (set_lastLimits (Some limits) st)).
  { intros w. apply (disciplined_same w st); [reflexivity | destruct w; reflexivity | apply H]. }
  pose proof (disciplined_reconcileWindow Primary r limits _ Ho0 H0) as H1.
  pose proof (ownHandles_reconcileWindow Primary r limits _ Ho0) as Ho1.
  destruct (reconcileWindow Primary r limits (set_lastLimits (Some limits) st)) as [s|s];
    cbn [andThen stateOf] in *; [|exact H1].
  apply disciplined_reconcileWindow; assumption.
Qed.

Lemma find_timer_Some (h : nat) (st : State) (x : Timer) :
  find_timer h st = Some x -> In x (timers st) /\ handle x = h.
Proof.
  unfold find_timer. intros H. apply List.find_some in H.
  destruct H as [Hin Hh]. split; [exact Hin|]. apply Nat.eqb_eq. exact Hh.
Qed.

Lemma disciplined_toggle (w0 : WindowType) (b : bool) (r : ArmReadings) (st : State) :
  ownHandles st ->
  (forall w, disciplined w st) ->
  (b = true -> liveTimers w0 st = []) ->
  forall w, disciplined w (toggle w0 b r st).
Proof.
  intros Ho H Hb.
  assert (Ho1 : ownHandles (set_enabled w0 b st))
    by (revert Ho; apply ownHandles_same; destruct w0; reflexivity).
  assert (H1 : forall w, disciplined w (set_enabled w0 b st)).
  { intros w. apply (disciplined_same w st);
      [destruct w0; reflexivity | destruct w0, w; reflexivity | apply H]. }
  assert (He : enabledOf w0 (set_enabled w0 b st) = b) by (destruct w0; reflexivity).
  intros w. unfold toggle. cbv zeta. rewrite He.
  destruct (negb b && _).
  - assert (Hd : w0 = w \/ w0 <> w) by (destruct w0, w; auto; right; discriminate).
    destruct Hd as [E|Hne].
    + subst w. left.
      rewrite <- (liveTimers_clearStored_own w0 _ (H1 w0)). destruct w0; reflexivity.
    + apply (disciplined_same w (clearStored w0 (set_enabled w0 b st)));
        [destruct w0; reflexivity | destruct w0, w; try congruence; reflexivity |].
      apply disciplined_clearStored; auto.
  - destruct b; simpl.
    + destruct (truthy_time _); [|apply H1].
      apply disciplined_schedulePing; [|exact H1].
      rewrite <- (Hb eq_refl). destruct w0; reflexivity.
    + apply H1.
Qed.

(** X11.  Every task other than the continuation of a timer callback, and
    other than a message that switches on a window which still has a live
    timer, keeps the handle discipline in a reachable state: if each
    window has at most one live timer and holds its handle, the same is
    true afterwards. *)
Theorem handle_discipline_kept (e : Event) (st st' : State) :
  reachable st ->
  (forall w, disciplined w st) ->
  keepsHandles e st ->
  step e st = Some st' ->
  forall w, disciplined w st'.
Proof.
  intros Hr H Hk Hstep. apply ownHandles_reachable in Hr.
  destruct e as [auth|h auth date|i t r|command enabled r]; simpl in Hstep.
  - inversion Hstep; subst. intros w.
    apply (disciplined_same w st); [| |apply H]; destruct auth; try reflexivity;
      destruct w; reflexivity.
  - destruct (find_timer h st) as [x|] eqn:Hx; [|discriminate].
    inversion Hstep; subst; clear Hstep.
    apply find_timer_Some in Hx. destruct Hx as [Hin Hh].
    pose proof (fun w => disciplined_removeTimer w h st (H w)) as H1.
    intros w. destruct auth as [a|]; simpl.
    + apply (disciplined_same w (removeTimer h st));
        [reflexivity | destruct w; reflexivity | apply H1].
    + assert (Hd : window x = w \/ window x <> w)
        by (destruct (window x), w; auto; right; discriminate).
      destruct Hd as [E|Hne].
      * left.
        assert (Hl : liveTimers w (removeTimer h st) = []).
        { rewrite liveTimers_removeTimer.
          assert (Hxl : In x (liveTimers w st)) by (apply In_liveTimers; auto).
          destruct (H w) as [H0|(t & H0 & _)]; rewrite H0 in *; [destruct Hxl|].
          destruct Hxl as [Ex|[]]. subst t. simpl.
          unfold has_handle. rewrite Hh, Nat.eqb_refl. reflexivity. }
        rewrite <- Hl. destruct (window x); reflexivity.
      * apply (disciplined_same w (removeTimer h st));
          [destruct (window x); reflexivity
          | destruct (window x), w; try congruence; reflexivity | apply H1].
  - simpl in Hk.
    destruct (take_nth i (inflight st)) as [[p rest]|]; [|discriminate].
    inversion Hstep; subst; clear Hstep.
    assert (Ho0 : ownHandles (set_inflight rest st))
      by (revert Hr; apply ownHandles_same; reflexivity).
    assert (H0 : forall w, disciplined w (set_inflight rest st)).
    { intros w. apply (disciplined_same w st);
        [reflexivity | destruct w; reflexivity | apply H]. }
    destruct p as [|type|type].
    + unfold checkLimits_resume. destruct (pingCodex t); [|exact H0].
      apply disciplined_applyLimits; assumption.
    + exfalso. apply (Hk type rest). reflexivity.
    + unfold immediate_resume. destruct (pingCodex t); [|exact H0].
      apply disciplined_applyLimits; assumption.
  - inversion Hstep; subst; clear Hstep. unfold onDidReceiveMessage.
    destruct (String.eqb command "togglePrimary") eqn:Ep.
    + apply String.eqb_eq in Ep. apply disciplined_toggle; auto.
      intros Hb. subst enabled. simpl in Hk. apply Hk. exact Ep.
    + destruct (String.eqb command "toggleSecondary") eqn:Es; [|exact H].
      apply String.eqb_eq in Es. apply disciplined_toggle; auto.
      intros Hb. subst enabled. simpl in Hk. apply Hk. exact Es.
Qed.

Lemma disciplined_after_first_poll : forall w, disciplined w (after first_poll).
Proof.
  intros [|]; right; eexists; split; vm_compute; reflexivity.
Qed.

(** The secondary window is switched off after the start-up check. *)
Lemma handle_discipline_kept_witness :
  reachable (after first_poll) /\
  (forall w, disciplined w (after first_poll)) /\
  forall w,
    disciplined w
      (onDidReceiveMessage "toggleSecondary" false
         (armAt (startup + 1000) (Some credentials)) (after first_poll)).
Proof.
  assert (H : reachable (after first_poll))
    by (apply reachable_after; vm_compute; reflexivity).
  split; [exact H|]. split; [exact disciplined_after_first_poll|].
  apply (handle_discipline_kept
           (Message "toggleSecondary" false (armAt (startup + 1000) (Some credentials)))
           (after first_poll) _ H disciplined_after_first_poll I eq_refl).
Defined.

(** ** The headers that matter *)

Lemma parseHeader_same (h1 h2 : gmap string string) (name : string) :
  Js.toLowerCase name = name ->
  h1 !! name = h2 !! name ->
  parseHeader h1 name = parseHeader h2 name.
Proof.
  intros Hlow H. unfold parseHeader. rewrite Hlow, H. reflexivity.
Qed.

(** X12.  [extractLimits] reads the four rate-limit headers and nothing
    else: two header maps that agree on those four names give the same
    result, whatever else they hold. *)
Theorem extractLimits_reads_four_headers (h1 h2 : gmap string string) :
  (forall w, h1 !! usedHeader w = h2 !! usedHeader w /\
             h1 !! resetHeader w = h2 !! resetHeader w) ->
  extractLimits h1 = extractLimits h2.
Proof.
  intros H. rewrite !extractLimits_unfold. unfold extractWindow.
  rewrite (parseHeader_same h1 h2 (usedHeader Primary))
    by (apply usedHeader_lower || apply H).
  rewrite (parseHeader_same h1 h2 (resetHeader Primary))
    by (apply resetHeader_lower || apply H).
  rewrite (parseHeader_same h1 h2 (usedHeader Secondary))
    by (apply usedHeader_lower || apply H).
  rewrite (parseHeader_same h1 h2 (resetHeader Secondary))
    by (apply resetHeader_lower || apply H).
  reflexivity.
Qed.

(** [headers_both] with two more headers. *)
Lemma extractLimits_reads_four_headers_witness :
  (forall w,
      (<["date" := "now"]> (<["x-request-id" := "7"]> headers_both)) !! usedHeader w
      = headers_both !! usedHeader w /\
      (<["date" := "now"]> (<["x-request-id" := "7"]> headers_both)) !! resetHeader w
      = headers_both !! resetHeader w) /\
  extractLimits (<["date" := "now"]> (<["x-request-id" := "7"]> headers_both))
  = extractLimits headers_both.
Proof.
  assert (H : forall w,
      (<["date" := "now"]> (<["x-request-id" := "7"]> headers_both)) !! usedHeader w
      = headers_both !! usedHeader w /\
      (<["date" := "now"]> (<["x-request-id" := "7"]> headers_both)) !! resetHeader w
      = headers_both !! resetHeader w)
    by (intros [|]; split; vm_compute; reflexivity).
  exact (conj H (extractLimits_reads_four_headers _ _ H)).
Defined.

(** ** The delay of a timer *)

Lemma Math_max_zero (d : Js.number) :
  Js.gt (Js.Math_max Js.zero d) Js.zero = Js.gt d Js.zero /\
  (Js.gt d Js.zero = true -> Js.Math_max Js.zero d = d).
Proof.
  destruct d as [[|]|[|]| |[|] m e]; vm_compute; split; congruence.
Qed.

(** X13.  For an enabled window and a non-zero reset time, [schedulePing]
    sets a timer exactly when [resetTime - now] is above zero, and the
    delay of the timer is that difference: the clamp of [Math.max] never
    changes a delay that is used.  Otherwise no timer is set and the
    stored handle is left alone. *)
Theorem schedulePing_timer_iff (r : ArmReadings) (t : Js.number)
    (type : WindowType) (st : State) :
  Js.truthy t = true ->
  enabledOf type st = true ->
  let d := Js.sub t (Js.of_Z (arm_now r)) in
  let st' := stateOf (schedulePing r (Some t) type st) in
  (Js.gt d Js.zero = true ->
   timers st' = timers st ++ [{| handle := nextHandle st; window := type; delay := d |}] /\
   timerOf type st' = Some (nextHandle st) /\
   pingCount st' = pingCount st /\ inflight st' = inflight st) /\
  (Js.gt d Js.zero = false ->
   timers st' = timers st /\ timerOf type st' = timerOf type st).
Proof.
  intros Ht He. cbv zeta. unfold schedulePing. rewrite Ht, He. simpl.
  destruct (Math_max_zero (Js.sub t (Js.of_Z (arm_now r)))) as [Hg Hm].
  rewrite Hg. split; intros Hd; rewrite Hd.
  - rewrite (Hm Hd). destruct (validDate t); simpl; destruct type; auto.
  - destruct (arm_auth r); simpl; destruct type; auto.
Qed.

Lemma schedulePing_timer_iff_witness :
  Js.gt (Js.sub (Js.of_Z (startup + 300000)) (Js.of_Z startup)) Js.zero = true /\
  timers (stateOf (schedulePing (armAt startup (Some credentials))
                     (Some (Js.of_Z (startup + 300000))) Primary initial))
  = timers initial ++
    [{| handle := nextHandle initial; window := Primary;
        delay := Js.sub (Js.of_Z (startup + 300000)) (Js.of_Z startup) |}].
Proof.
  assert (H : Js.gt (Js.sub (Js.of_Z (startup + 300000))
                       (Js.of_Z (arm_now (armAt startup (Some credentials)))))
                Js.zero = true) by (vm_compute; reflexivity).
  split; [exact H|].
  exact (proj1 (proj1 (schedulePing_timer_iff (armAt startup (Some credentials))
                         (Js.of_Z (startup + 300000)) Primary initial
                         eq_refl eq_refl) H)).
Defined.

(** ** The status bar *)

Lemma SFcompare_antisym (a b : Js.number) :
  SFcompare b a = option_map CompOpp (SFcompare a b).
Proof.
  destruct a as [sa|sa| |sa ma ea], b as [sb|sb| |sb mb eb]; simpl;
    try reflexivity; try (destruct sa; reflexivity); try (destruct sb; reflexivity);
    try (destruct sa, sb; reflexivity).
  destruct sa, sb; try reflexivity; f_equal;
    rewrite (Z.compare_antisym ea eb);
    destruct (ea ?= eb); simpl; try reflexivity;
    rewrite (Pos.compare_cont_antisym ma mb Eq); reflexivity.
Qed.

Lemma truthy_not_NaN (x : Js.number) : Js.truthy x = true -> Js.isNaN x = false.
Proof. destruct x; simpl; congruence. Qed.

Lemma SFcompare_Some (a b : Js.number) :
  Js.isNaN a = false -> Js.isNaN b = false -> exists c, SFcompare a b = Some c.
Proof.
  destruct a, b; simpl; try discriminate; eauto.
Qed.

Lemma not_lt_le (a b : Js.number) :
  Js.isNaN a = false -> Js.isNaN b = false ->
  Js.lt b a = false -> Js.le a b = true.
Proof.
  intros Ha Hb. unfold Js.lt, Js.le, SFltb, SFleb. rewrite (SFcompare_antisym a b).
  destruct (SFcompare_Some a b Ha Hb) as [c Hc]. rewrite Hc.
  destruct c; simpl; congruence.
Qed.

Lemma lt_le (a b : Js.number) : Js.lt a b = true -> Js.le a b = true.
Proof.
  unfold Js.lt, Js.le, SFltb, SFleb. destruct (SFcompare a b) as [[| |]|]; congruence.
Qed.

Lemma le_same (a : Js.number) : Js.isNaN a = false -> Js.le a a = true.
Proof.
  intros Ha. pose proof (eq_same a Ha) as H.
  unfold Js.eq, Js.le, SFeqb, SFleb in *.
  destruct (SFcompare a a) as [[| |]|]; congruence.
Qed.

Lemma window_candidate (w : WindowType) (st : State) :
  (exists t, enabledOf w st = true /\ resetTimeOf w st = Some t /\ Js.truthy t = true) \/
  (enabledOf w st = false \/ truthy_time (resetTimeOf w st) = false).
Proof.
  destruct (enabledOf w st); [|auto].
  destruct (resetTimeOf w st) as [t|]; simpl; [|auto].
  destruct (Js.truthy t) eqn:Ht; [left; eauto | auto].
Qed.

(** What [nextPingTime] comes to: nothing when no enabled window has a
    non-zero reset time, and otherwise such a reset time that no other is
    earlier than. *)
Lemma nextPingTime_earliest (st : State) :
  match nextPingTime st with
  | None => forall w, enabledOf w st = false \/ truthy_time (resetTimeOf w st) = false
  | Some t0 =>
      Js.truthy t0 = true /\
      (exists w0, enabledOf w0 st = true /\ resetTimeOf w0 st = Some t0) /\
      forall w t, enabledOf w st = true -> resetTimeOf w st = Some t ->
                  Js.truthy t = true -> Js.le t0 t = true
  end.
Proof.
  assert (Hnot : forall w t,
             enabledOf w st = false \/ truthy_time (resetTimeOf w st) = false ->
             enabledOf w st = true -> resetTimeOf w st = Some t ->
             Js.truthy t = true -> False).
  { intros w t [H|H] He Hr Ht; [congruence|]. rewrite Hr in H. simpl in H. congruence. }
  unfold nextPingTime.
  destruct (window_candidate Primary st) as [(p & Ep & Rp & Tp)|Hp];
    destruct (window_candidate Secondary st) as [(s & Es & Rs & Ts)|Hs];
    simpl in *.
  - rewrite Ep, Rp, Rs, Es, Ts. simpl. rewrite ?Tp. simpl.
    destruct (Js.lt s p) eqn:Hlt.
    + split; [exact Ts|]. split; [exists Secondary; auto|].
      intros [|] t He Hr Ht; simpl in Hr; rewrite ?Rp, ?Rs in Hr; inversion Hr; subst.
      * apply lt_le, Hlt.
      * apply le_same, truthy_not_NaN, Ts.
    + split; [exact Tp|]. split; [exists Primary; auto|].
      intros [|] t He Hr Ht; simpl in Hr; rewrite ?Rp, ?Rs in Hr; inversion Hr; subst.
      * apply le_same, truthy_not_NaN, Tp.
      * apply not_lt_le; auto using truthy_not_NaN.
  - rewrite Ep, Rp. simpl. rewrite Tp.
    assert (E : match secondaryResetTime st with
                | Some s =>
                    if secondaryEnabled st && Js.truthy s
                    then if negb (Js.truthy p) || Js.lt s p then Some s else Some p
                    else Some p
                | None => Some p
                end = Some p).
    { destruct (secondaryResetTime st) as [s|]; [|reflexivity].
      destruct Hs as [Hs|Hs]; simpl in Hs; rewrite Hs; [reflexivity|].
      rewrite andb_false_r. reflexivity. }
    rewrite E. split; [exact Tp|]. split; [exists Primary; auto|].
    intros [|] t He Hr Ht.
    + simpl in Hr. rewrite Rp in Hr. inversion Hr; subst.
      apply le_same, truthy_not_NaN, Tp.
    + exfalso. apply (Hnot Secondary t); auto.
  - assert (E : (if primaryEnabled st && truthy_time (primaryResetTime st)
                 then primaryResetTime st else None) = None).
    { destruct Hp as [Hp|Hp]; rewrite Hp; [reflexivity|].
      rewrite andb_false_r. reflexivity. }
    rewrite E, Rs, Es, Ts. simpl.
    split; [exact Ts|]. split; [exists Secondary; auto|].
    intros [|] t He Hr Ht.
    + exfalso. apply (Hnot Primary t); auto.
    + simpl in Hr. rewrite Rs in Hr. inversion Hr; subst.
      apply le_same, truthy_not_NaN, Ts.
  - assert (E : (if primaryEnabled st && truthy_time (primaryResetTime st)
                 then primaryResetTime st else None) = None).
    { destruct Hp as [Hp|Hp]; rewrite Hp; [reflexivity|].
      rewrite andb_false_r. reflexivity. }
    rewrite E.
    assert (E2 : match secondaryResetTime st with
                 | Some s => if secondaryEnabled st && Js.truthy s then Some s else None
                 | None => None
                 end = None).
    { destruct (secondaryResetTime st) as [s|]; [|reflexivity].
      destruct Hs as [Hs|Hs]; simpl in Hs; rewrite Hs; [reflexivity|].
      rewrite andb_false_r. reflexivity. }
    rewrite E2. intros [|]; assumption.
Qed.

(** X14.  With credentials, the status bar shows the bare icon exactly
    when no enabled window has a non-zero reset time; otherwise it counts
    down, in minutes rounded half up, to a reset time of an enabled window
    that no other enabled window's reset time precedes.  A disabled
    window is never shown. *)
Theorem statusBar_counts_down_to_earliest (auth : AuthData) (now : Z) (st : State) :
  ((forall w, enabledOf w st = false \/ truthy_time (resetTimeOf w st) = false) ->
   updateStatusBar (Some auth) now st
   = {| text := "$(sync)"; tooltip := "Click to view details" |}) /\
  ((exists w, enabledOf w st = true /\ truthy_time (resetTimeOf w st) = true) ->
   exists w0 t0,
     enabledOf w0 st = true /\ resetTimeOf w0 st = Some t0 /\ Js.truthy t0 = true /\
     (forall w t, enabledOf w st = true -> resetTimeOf w st = Some t ->
                  Js.truthy t = true -> Js.le t0 t = true) /\
     text (updateStatusBar (Some auth) now st)
     = String.append "$(sync) "
         (String.append (Js.toString (minutesUntil t0 now)) "m")).
Proof.
  pose proof (nextPingTime_earliest st) as H. unfold updateStatusBar.
  destruct (nextPingTime st) as [t0|].
  - destruct H as (Ht & (w0 & He & Hr) & Hmin). split.
    + intros Hnone. destruct (Hnone w0) as [Hf|Hf]; [congruence|].
      rewrite Hr in Hf. simpl in Hf. congruence.
    + intros _. exists w0, t0. rewrite Ht. simpl. auto.
  - split; [reflexivity|].
    intros (w & He & Ht). destruct (H w) as [Hf|Hf]; congruence.
Qed.

Example statusBar_after_first_poll :
  updateStatusBar (Some credentials) (startup + 60000) (after first_poll)
  = {| text := "$(sync) 4m";
       tooltip := "Next ping in 4 minutes. Click to view details." |}.
Proof. vm_compute; reflexivity. Qed.

Example statusBar_logged_out :
  text (updateStatusBar None (startup + 60000) (after first_poll)) = "$(sync)"%string.
Proof. reflexivity. Qed.

Lemma statusBar_counts_down_to_earliest_witness :
  (exists w, enabledOf w (after first_poll) = true /\
             truthy_time (resetTimeOf w (after first_poll)) = true) /\
  exists w0 t0,
    enabledOf w0 (after first_poll) = true /\
    resetTimeOf w0 (after first_poll) = Some t0 /\ Js.truthy t0 = true /\
    (forall w t, enabledOf w (after first_poll) = true ->
                 resetTimeOf w (after first_poll) = Some t ->
                 Js.truthy t = true -> Js.le t0 t = true) /\
    text (updateStatusBar (Some credentials) (startup + 60000) (after first_poll))
    = String.append "$(sync) "
        (String.append (Js.toString (minutesUntil t0 (startup + 60000))) "m").
Proof.
  exact (conj (ex_intro _ Primary (conj eq_refl eq_refl))
           (proj2 (statusBar_counts_down_to_earliest credentials (startup + 60000)
                     (after first_poll))
              (ex_intro _ Primary (conj eq_refl eq_refl)))).
Defined.
(** ** The details panel and its refresh interval *)

Lemma panel_step_single (e : PanelEvent) (ui ui' : Panels) :
  intervals ui = match infoPanel ui with Some i => [i] | None => [] end ->
  panel_step e ui = Some ui' ->
  intervals ui' = match infoPanel ui' with Some i => [i] | None => [] end.
Proof.
  intros Hinv Hstep. destruct e; simpl in Hstep.
  - inversion Hstep; subst. unfold createInfoPanel.
    destruct (infoPanel ui) eqn:Hp.
    + rewrite Hp. exact Hinv.
    + simpl. rewrite Hinv. reflexivity.
  - destruct (infoPanel ui) as [i|] eqn:Hp; [|discriminate].
    inversion Hstep; subst. simpl. rewrite Hinv. simpl.
    rewrite Nat.eqb_refl. reflexivity.
Qed.

Lemma panel_run_single (es : list PanelEvent) : forall ui ui',
  intervals ui = match infoPanel ui with Some i => [i] | None => [] end ->
  panel_run es ui = Some ui' ->
  intervals ui' = match infoPanel ui' with Some i => [i] | None => [] end.
Proof.
  induction es as [|e es IH]; intros ui ui' Hinv Hrun; simpl in Hrun.
  - inversion Hrun; subst. exact Hinv.
  - destruct (panel_step e ui) as [ui1|] eqn:Hstep; [|discriminate].
    apply (IH ui1 ui'); [|exact Hrun].
    apply (panel_step_single e ui); assumption.
Qed.

(** X15.  However often the details panel is asked for and closed, the
    content is refreshed by at most one interval: the one of the panel that
    is open.  Asking for the panel while it is open sets no second
    interval, and closing the panel leaves none behind. *)
Theorem one_refresh_interval (es : list PanelEvent) (ui : Panels) :
  panel_run es no_panel = Some ui ->
  intervals ui = match infoPanel ui with Some i => [i] | None => [] end.
Proof.
  intros Hrun. apply (panel_run_single es no_panel); [reflexivity|exact Hrun].
Qed.

Lemma one_refresh_interval_witness :
  panel_run [ShowInfo; ShowInfo; ClosePanel; ShowInfo] no_panel
  = Some {| infoPanel := Some 1%nat; intervals := [1%nat]; nextInterval := 2%nat |} /\
  intervals {| infoPanel := Some 1%nat; intervals := [1%nat]; nextInterval := 2%nat |}
  = [1%nat].
Proof.
  exact (conj eq_refl
           (one_refresh_interval [ShowInfo; ShowInfo; ClosePanel; ShowInfo] _ eq_refl)).
Defined.

(** ** The durations of the details panel *)

Lemma all_from_spec (f : Z -> bool) (n : nat) : forall lo,
  all_from f lo n = true -> forall z, lo <= z < lo + Z.of_nat n -> f z = true.
Proof.
  induction n as [|n IH]; intros lo Hall z Hz.
  - simpl in Hz. lia.
  - simpl in Hall. destruct (f lo) eqn:Hlo; [|discriminate].
    destruct (Z.eq_dec z lo) as [->|Hne]; [exact Hlo|].
    apply (IH (lo + 1) Hall). lia.
Qed.

Lemma sixty_seconds_checked : all_from shows_sixty_seconds 59500 500 = true.
Proof. vm_compute; reflexivity. Qed.

(** X16.  [formatTime] chooses the unit before it rounds: a whole number of
    milliseconds from 59500 up to 59999 is under a minute, so it is shown
    in seconds, and rounds to ["60s"], not to ["1m"]. *)
Theorem formatTime_sixty_seconds (z : Z) :
  59500 <= z < 60000 -> formatTime (Js.of_Z z) = "60s"%string.
Proof.
  intros Hz. apply String.eqb_eq.
  apply (all_from_spec shows_sixty_seconds 500 59500 sixty_seconds_checked). lia.
Qed.

Lemma formatTime_sixty_seconds_witness :
  59500 <= 59750 < 60000 /\ formatTime (Js.of_Z 59750) = "60s"%string.
Proof.
  exact (conj (conj (Zle_bool_imp_le 59500 59750 eq_refl) eq_refl)
           (formatTime_sixty_seconds 59750
              (conj (Zle_bool_imp_le 59500 59750 eq_refl) eq_refl))).
Defined.
